(** * cga.js: the 2x2 matrix class [Mat2] and the [Line] distance interface

    A shallow embedding of [Mat2] (TypeScript) and proofs of its documented
    behaviour.

    - A JavaScript [number] is an IEEE 754 binary64 value.  The embedding is
      written once over an interface [Number] of the operations the source
      uses ([0], [1], [+], [-], [*], [/], unary [-], [===]) and is run at two
      instances: Rocq's primitive binary64 floats (what the program computes
      with) and the rationals [Qc] (exact arithmetic).
    - A [Mat2] value is a reference to a mutable object.  Objects live in a
      heap; [Mat2.IDENTITY] and [Mat2.ZERO] are two objects allocated once,
      when the class is initialised, and shared by every caller.
    - Methods are computations in a state-and-exception monad over the heap
      and the console.
    - [fromMat3] and [multiplyVec2] use the classes [Mat3] and [Vec2], which
      are not in the files at hand: what they use of them is a parameter.
      [isMat2] is left out: it inspects the keys of an arbitrary object at
      run time.
    - [Line] is declared only; its model follows the specification and is
      written over the numbers in the same way. *)

From Stdlib Require Import ZArith QArith Qcanon Floats Reals Lra Field String List.
From stdpp Require Import base option list gmap.

Set Default Proof Using "Type*".

(** ** Numbers *)

Declare Scope num_scope.
Delimit Scope num_scope with num.

(** What the constructor needs of an element: the value written by the field
    initialisers [v11 = 0] and by [fill(0)]. *)
Class Elem (V : Type) : Type := { zero_value : V }.

(** The operations of the source on [number]. *)
Class Number (N : Type) : Type := {
  num_zero : N;
  num_one : N;
  num_add : N -> N -> N;
  num_sub : N -> N -> N;
  num_mul : N -> N -> N;
  num_div : N -> N -> N;
  num_neg : N -> N;
  strict_eq : N -> N -> bool
}.

Notation "0" := num_zero : num_scope.
Notation "1" := num_one : num_scope.
Infix "+" := num_add : num_scope.
Infix "-" := num_sub : num_scope.
Infix "*" := num_mul : num_scope.
Infix "/" := num_div : num_scope.
Notation "- x" := (num_neg x) : num_scope.
Infix "===" := strict_eq (at level 70, no associativity) : num_scope.

#[export] Instance Number_Elem {N : Type} `{Number N} : Elem N :=
  {| zero_value := num_zero |}.

(** IEEE 754 binary64, the [number] of the JavaScript run time. *)
#[export] Instance binary64 : Number float := {
  num_zero := PrimFloat.zero;
  num_one := PrimFloat.one;
  num_add := PrimFloat.add;
  num_sub := PrimFloat.sub;
  num_mul := PrimFloat.mul;
  num_div := PrimFloat.div;
  num_neg := PrimFloat.opp;
  strict_eq := PrimFloat.eqb
}.

(** Exact arithmetic: the rationals in canonical form. *)
#[export] Instance rational : Number Qc := {
  num_zero := Q2Qc 0;
  num_one := Q2Qc 1;
  num_add := Qcplus;
  num_sub := Qcminus;
  num_mul := Qcmult;
  num_div := Qcdiv;
  num_neg := Qcopp;
  strict_eq := fun x y => if Qc_eq_dec x y then true else false
}.

(** The laws of exact arithmetic: the numbers form a field and [===] decides
    equality. *)
Class ExactArithmetic (N : Type) `{Number N} : Prop := {
  exact_field :
    field_theory num_zero num_one num_add num_mul num_sub num_neg num_div
      (fun x => num_div num_one x) eq;
  exact_strict_eq : forall x y : N, strict_eq x y = true <-> x = y
}.

(** A binary64 number that is neither NaN nor an infinity. *)
Definition finite (x : float) : bool := PrimFloat.is_finite x.

(** Two binary64 numbers are the same number when they are identical or
    [===] (which identifies the two zeros). *)
Definition same_number (v w : float) : Prop := v = w \/ (v =? w)%float = true.

(** ** Objects, heap and console *)

Record Mat2 (V : Type) : Type := mkMat2 { v11 : V; v12 : V; v21 : V; v22 : V }.
Arguments mkMat2 {V} _ _ _ _.
Arguments v11 {V} _.
Arguments v12 {V} _.
Arguments v21 {V} _.
Arguments v22 {V} _.

(** The four fields of a [Mat2] object. *)
Inductive field : Type := f11 | f12 | f21 | f22.

Definition get_field {V : Type} (f : field) (o : Mat2 V) : V :=
  match f with
  | f11 => v11 o
  | f12 => v12 o
  | f21 => v21 o
  | f22 => v22 o
  end.

Definition set_field {V : Type} (f : field) (v : V) (o : Mat2 V) : Mat2 V :=
  match f with
  | f11 => mkMat2 v (v12 o) (v21 o) (v22 o)
  | f12 => mkMat2 (v11 o) v (v21 o) (v22 o)
  | f21 => mkMat2 (v11 o) (v12 o) v (v22 o)
  | f22 => mkMat2 (v11 o) (v12 o) (v21 o) v
  end.

(** A reference to an object. *)
Abbreviation loc := positive (only parsing).

Record state (V : Type) : Type := mkState {
  heap : gmap positive (Mat2 V);
  console : list string
}.
Arguments mkState {V} _ _.
Arguments heap {V} _.
Arguments console {V} _.

(** How a call ends.  [Stuck] is outside the typed program: a reference with
    no object behind it, or a destructuring that would store [undefined] in a
    [number] field. *)
Inductive outcome (A : Type) : Type :=
| Returns (a : A)
| Throws (message : string)
| Stuck.
Arguments Returns {A} _.
Arguments Throws {A} _.
Arguments Stuck {A}.

Definition M (V A : Type) : Type := state V -> outcome A * state V.

Definition ret {V A : Type} (a : A) : M V A := fun s => (Returns a, s).

Definition bind {V A B : Type} (c : M V A) (k : A -> M V B) : M V B :=
  fun s =>
    match c s with
    | (Returns a, s') => k a s'
    | (Throws e, s') => (Throws e, s')
    | (Stuck, s') => (Stuck, s')
    end.

Notation "'let!' x ':=' c 'in' k" := (bind c (fun x => k))
  (at level 10, x pattern, c at level 100, k at level 200).

Definition throw {V A : Type} (message : string) : M V A :=
  fun s => (Throws message, s).

Definition stuck {V A : Type} : M V A := fun s => (Stuck, s).

(** [console.warn(message)] *)
Definition console_warn {V : Type} (message : string) : M V unit :=
  fun s => (Returns tt, mkState (heap s) (console s ++ [message])).

(** A new object, at a reference no object has yet. *)
Definition alloc {V : Type} (o : Mat2 V) : M V loc :=
  fun s =>
    let l := fresh (dom (heap s)) in
    (Returns l, mkState (<[l := o]> (heap s)) (console s)).

(** [m.f] *)
Definition read {V : Type} (m : loc) (f : field) : M V V :=
  fun s =>
    match heap s !! m with
    | Some o => (Returns (get_field f o), s)
    | None => (Stuck, s)
    end.

(** [m.f = v] *)
Definition write {V : Type} (m : loc) (f : field) (v : V) : M V unit :=
  fun s =>
    match heap s !! m with
    | Some o => (Returns tt, mkState (<[m := set_field f v o]> (heap s)) (console s))
    | None => (Stuck, s)
    end.

(** [arr.slice(start, end)] for [0 <= start <= end]. *)
Definition slice {A : Type} (start end_ : nat) (arr : list A) : list A :=
  take (end_ - start) (drop start arr).

(** [const [a, b, c, d] = arr]: the elements at indices 0 to 3; a missing one
    would be [undefined]. *)
Definition destructure4 {V A : Type} (arr : list A) : M V (A * A * A * A) :=
  match arr !! 0%nat, arr !! 1%nat, arr !! 2%nat, arr !! 3%nat with
  | Some a, Some b, Some c, Some d => ret (a, b, c, d)
  | _, _, _, _ => stuck
  end.

(** ** The class [Mat2] *)

Section Constructor.
Context {V : Type} `{Elem V}.

(** [constructor(...values: number[])], run by [new Mat2(...values)]: the
    object is created with its four fields initialised to 0, then the body
    assigns them. *)
Definition Mat2_new (values : list V) : M V loc :=
  let! this := alloc (mkMat2 zero_value zero_value zero_value zero_value) in
  let length := length values in
  let! invalidValues :=
    if (4 <? length)%nat then
      let! _ := console_warn "Values length is over than 4, it will be cut off." in
      ret (slice 0 4 values)
    else if (length <? 4)%nat then
      let! _ := console_warn "Values length is less than 4, others will fill with ZERO." in
      ret (values ++ replicate (4 - length) zero_value)
    else
      ret values in
  let! (a, b, c, d) := destructure4 invalidValues in
  let! _ := write this f11 a in
  let! _ := write this f12 b in
  let! _ := write this f21 c in
  let! _ := write this f22 d in
  ret this.

(** [static toArray(m)]: the rows, as a two-dimensional array. *)
Definition toArray (m : loc) : M V (list (list V)) :=
  let! a := read m f11 in
  let! b := read m f12 in
  let! c := read m f21 in
  let! d := read m f22 in
  ret [[a; b]; [c; d]].

(** [static toFlatArray(m)]: [Mat2.toArray(m).flat()]. *)
Definition toFlatArray (m : loc) : M V (list V) :=
  let! rows := toArray m in
  ret (concat rows).

(** [static flat(m)] *)
Definition flat (m : loc) : M V (list V) := toFlatArray m.

(** [static clone(m)] *)
Definition clone (m : loc) : M V loc :=
  let! a := read m f11 in
  let! b := read m f12 in
  let! c := read m f21 in
  let! d := read m f22 in
  Mat2_new [a; b; c; d].

(** [static fromArray(arr)]: [new Mat2(...arr)]. *)
Definition fromArray (arr : list V) : M V loc := Mat2_new arr.

(** [static transpose(m)] *)
Definition transpose (m : loc) : M V loc :=
  let! a := read m f11 in
  let! c := read m f21 in
  let! b := read m f12 in
  let! d := read m f22 in
  Mat2_new [a; c; b; d].

(** [static forEachRowOrder(m, fn)] *)
Definition forEachRowOrder (m : loc) (fn : V -> nat -> M V V) : M V loc :=
  let! a := read m f11 in let! a' := fn a 0%nat in let! _ := write m f11 a' in
  let! b := read m f12 in let! b' := fn b 1%nat in let! _ := write m f12 b' in
  let! c := read m f21 in let! c' := fn c 2%nat in let! _ := write m f21 c' in
  let! d := read m f22 in let! d' := fn d 3%nat in let! _ := write m f22 d' in
  ret m.

(** [static forEachColumnOrder(m, fn)] *)
Definition forEachColumnOrder (m : loc) (fn : V -> nat -> M V V) : M V loc :=
  let! a := read m f11 in let! a' := fn a 0%nat in let! _ := write m f11 a' in
  let! c := read m f21 in let! c' := fn c 1%nat in let! _ := write m f21 c' in
  let! b := read m f12 in let! b' := fn b 2%nat in let! _ := write m f12 b' in
  let! d := read m f22 in let! d' := fn d 3%nat in let! _ := write m f22 d' in
  ret m.

End Constructor.

(** The static fields, in the order the class body initialises them:
    [IDENTITY = new Mat2(1, 0, 0, 1)], then [ZERO = new Mat2(0, 0, 0, 0)]. *)
Definition IDENTITY : loc := 1%positive.
Definition ZERO : loc := 2%positive.

Section Methods.
Context {N : Type} `{Number N}.
Local Open Scope num_scope.

Definition class_init : M N (loc * loc) :=
  let! identity := Mat2_new [1; 0; 0; 1] in
  let! zero := Mat2_new [0; 0; 0; 0] in
  ret (identity, zero).

Definition empty_state : state N := mkState ∅ [].

(** The state once the module is loaded. *)
Definition initial_state : state N := snd (class_init empty_state).

(** [static determinant(m)] *)
Definition determinant (m : loc) : M N N :=
  let! a := read m f11 in
  let! d := read m f22 in
  let! b := read m f12 in
  let! c := read m f21 in
  ret (a * d - b * c).

(** [static equalPerElement(a, b)] *)
Definition equalPerElement (a b : loc) : M N bool :=
  let! a11 := read a f11 in let! b11 := read b f11 in
  let! a12 := read a f12 in let! b12 := read b f12 in
  let! a21 := read a f21 in let! b21 := read b f21 in
  let! a22 := read a f22 in let! b22 := read b f22 in
  let _isEqual :=
    (a11 === b11) && (a12 === b12) && (a21 === b21) && (a22 === b22) in
  ret _isEqual.

(** [static copyTo(sourceMatrix, toMatrix = Mat2.ZERO)]; [None] is the
    omitted argument. *)
Definition copyTo (sourceMatrix : loc) (toMatrix : option loc) : M N loc :=
  let toMatrix := default ZERO toMatrix in
  let! a := read sourceMatrix f11 in let! _ := write toMatrix f11 a in
  let! b := read sourceMatrix f12 in let! _ := write toMatrix f12 b in
  let! c := read sourceMatrix f21 in let! _ := write toMatrix f21 c in
  let! d := read sourceMatrix f22 in let! _ := write toMatrix f22 d in
  ret toMatrix.

(** [static multiply(left, right)] *)
Definition multiply (left right : loc) : M N loc :=
  let! l := flat left in
  let! (leftV11, leftV12, leftV21, leftV22) := destructure4 l in
  let! r := flat right in
  let! (rightV11, rightV12, rightV21, rightV22) := destructure4 r in
  Mat2_new [
    leftV11 * rightV11 + leftV12 * rightV21; leftV11 * rightV12 + leftV12 * rightV22;
    leftV21 * rightV11 + leftV22 * rightV21; leftV21 * rightV12 + leftV22 * rightV22
  ].

(** [static multiplyByScalar(m, num)] *)
Definition multiplyByScalar (m : loc) (num : N) : M N loc :=
  if num === 0 then
    ret ZERO
  else
    let! t := clone m in
    forEachRowOrder t (fun v _ => ret (v * num)).

(** [static inverse(m)] *)
Definition inverse (m : loc) : M N loc :=
  let! det := determinant m in
  if det === 0 then
    throw "Can not be inverse !"
  else
    let! d := read m f22 in
    let! b := read m f12 in
    let! c := read m f21 in
    let! a := read m f11 in
    let! adjugate := Mat2_new [d; - b; - c; a] in
    multiplyByScalar adjugate (1 / det).

End Methods.


(** ** Methods that use other classes

    [Vec2] and [Mat3] are imported from "./Vec2" and "./Mat3", which are not
    among the files at hand.  What the methods below use of them is taken as
    a parameter: for [Vec2] its constructor [new Vec2(x, y)] and its fields
    [x] and [y], for [Mat3] its method [toArray()], whose result is a
    [number[]] since its elements are passed on to [fromArray]; all are read
    as operations on values. *)

Section Vec2Methods.
Context {N : Type} `{Number N}.
Local Open Scope num_scope.

Variable Vec2 : Type.
Variable Vec2_new : N -> N -> Vec2.
Variable Vec2_x : Vec2 -> N.
Variable Vec2_y : Vec2 -> N.

(** [static multiplyVec2(m, vec)] *)
Definition multiplyVec2 (m : loc) (vec : Vec2) : M N Vec2 :=
  let! a := read m f11 in
  let! b := read m f12 in
  let x := a * Vec2_x vec + b * Vec2_y vec in
  let! c := read m f21 in
  let! d := read m f22 in
  let y := c * Vec2_x vec + d * Vec2_y vec in
  ret (Vec2_new x y).

End Vec2Methods.

Section Mat3Methods.
Context {N : Type} `{Number N}.

Variable Mat3 : Type.
Variable Mat3_toArray : Mat3 -> list N.

(** [static fromMat3(m)]: [const [v11, v12, _, v21, v22, ] = m.toArray()]
    takes the elements at indices 0, 1, 3 and 4.  An array with fewer than
    five elements would bind [undefined] to one of them. *)
Definition fromMat3 (m : Mat3) : M N loc :=
  let arr := Mat3_toArray m in
  match arr !! 0%nat, arr !! 1%nat, arr !! 3%nat, arr !! 4%nat with
  | Some v11, Some v12, Some v21, Some v22 => fromArray [v11; v12; v21; v22]
  | _, _, _, _ => stuck
  end.

End Mat3Methods.



(** ** Run-time values

    TypeScript's types are erased before the program runs: a field of a
    [Mat2] object then holds whatever value the constructor was given.  The
    constructor, [toArray] and [fromArray] do no arithmetic, so the
    definitions above run unchanged on such values. *)

#[warnings="-register-all"]
Inductive jsval (N : Type) : Type :=
| JNum (n : N)
| JArr (elems : list (jsval N)).
Arguments JNum {N} _.
Arguments JArr {N} _.

#[export] Instance jsval_Elem {N : Type} `{Number N} : Elem (jsval N) :=
  {| zero_value := JNum num_zero |}.

(** A [number[][]] seen as a [number[]]-typed argument: an array whose
    elements are the rows. *)
Definition rows_as_elements {N : Type} (rows : list (list (jsval N))) : list (jsval N) :=
  map JArr rows.

(** The class initialised over run-time values. *)
Definition class_init_erased {N : Type} `{Number N} : M (jsval N) (loc * loc) :=
  let! identity := Mat2_new [JNum num_one; JNum num_zero; JNum num_zero; JNum num_one] in
  let! zero := Mat2_new [JNum num_zero; JNum num_zero; JNum num_zero; JNum num_zero] in
  ret (identity, zero).

Definition initial_state_erased {N : Type} `{Number N} : state (jsval N) :=
  snd (class_init_erased (mkState ∅ [])).

(** ** What the constructor stores and logs *)

(** The element the constructor assigns at index [i]: the [i]-th argument,
    or 0 when there are fewer. *)
Definition element {V : Type} `{Elem V} (values : list V) (i : nat) : V :=
  default zero_value (values !! i).

Definition constructed {V : Type} `{Elem V} (values : list V) : Mat2 V :=
  mkMat2 (element values 0) (element values 1) (element values 2) (element values 3).

Definition warnings {V : Type} (values : list V) : list string :=
  if (4 <? length values)%nat then
    ["Values length is over than 4, it will be cut off."%string]
  else if (length values <? 4)%nat then
    ["Values length is less than 4, others will fill with ZERO."%string]
  else [].

(** A matrix all of whose elements are [=== 0]. *)
Definition all_zero {N : Type} `{Number N} (o : Mat2 N) : bool :=
  (strict_eq (v11 o) num_zero) && (strict_eq (v12 o) num_zero) &&
  (strict_eq (v21 o) num_zero) && (strict_eq (v22 o) num_zero).

(** A matrix of finite binary64 numbers. *)
Definition finite_matrix (o : Mat2 float) : bool :=
  finite (v11 o) && finite (v12 o) && finite (v21 o) && finite (v22 o).

(** The elements of [o], each multiplied by [num]. *)
Definition scaled {N : Type} `{Number N} (o : Mat2 N) (num : N) : Mat2 N :=
  mkMat2 (num_mul (v11 o) num) (num_mul (v12 o) num)
         (num_mul (v21 o) num) (num_mul (v22 o) num).

(** The value of [Mat2.determinant] on an object. *)
Definition det {N : Type} `{Number N} (o : Mat2 N) : N :=
  num_sub (num_mul (v11 o) (v22 o)) (num_mul (v12 o) (v21 o)).

(** The matrix [inverse] hands to [multiplyByScalar]. *)
Definition adjugate {N : Type} `{Number N} (o : Mat2 N) : Mat2 N :=
  mkMat2 (v22 o) (num_neg (v12 o)) (num_neg (v21 o)) (v11 o).

(** The row-by-column product. *)
Definition product {N : Type} `{Number N} (l r : Mat2 N) : Mat2 N :=
  mkMat2
    (num_add (num_mul (v11 l) (v11 r)) (num_mul (v12 l) (v21 r)))
    (num_add (num_mul (v11 l) (v12 r)) (num_mul (v12 l) (v22 r)))
    (num_add (num_mul (v21 l) (v11 r)) (num_mul (v22 l) (v21 r)))
    (num_add (num_mul (v21 l) (v12 r)) (num_mul (v22 l) (v22 r))).

(** [===] on the four elements. *)
Definition equal_elements {N : Type} `{Number N} (a b : Mat2 N) : bool :=
  (strict_eq (v11 a) (v11 b)) && (strict_eq (v12 a) (v12 b)) &&
  (strict_eq (v21 a) (v21 b)) && (strict_eq (v22 a) (v22 b)).

(** The objects [Mat2.IDENTITY] and [Mat2.ZERO] as the class creates them. *)
Definition identity_matrix {N : Type} `{Number N} : Mat2 N :=
  mkMat2 num_one num_zero num_zero num_one.

Definition zero_matrix {N : Type} `{Number N} : Mat2 N :=
  mkMat2 num_zero num_zero num_zero num_zero.

(** The state after [inverse] has built the adjugate. *)
Definition with_adjugate {N : Type} `{Number N} (s : state N) (o : Mat2 N) : state N :=
  mkState (<[fresh (dom (heap s)) := adjugate o]> (heap s)) (console s).

(** A mantissa [m] followed by [k] zero bits: [m * 2^k]. *)
Fixpoint with_zero_bits (k : nat) (m : positive) : positive :=
  match k with
  | O => m
  | S k' => xO (with_zero_bits k' m)
  end.

(** The state after a new object [o] has been created. *)
Definition with_new {V : Type} (s : state V) (o : Mat2 V) : state V :=
  mkState (<[fresh (dom (heap s)) := o]> (heap s)) (console s).

(** The matrix [o], transposed. *)
Definition transposed {V : Type} (o : Mat2 V) : Mat2 V :=
  mkMat2 (v11 o) (v21 o) (v12 o) (v22 o).

(** [o] with every element replaced by its image under [g]; [g] also gets
    the index that [forEachRowOrder], respectively [forEachColumnOrder],
    passes with the element. *)
Definition mapped_row_order {V : Type} (g : V -> nat -> V) (o : Mat2 V) : Mat2 V :=
  mkMat2 (g (v11 o) 0%nat) (g (v12 o) 1%nat) (g (v21 o) 2%nat) (g (v22 o) 3%nat).

Definition mapped_column_order {V : Type} (g : V -> nat -> V) (o : Mat2 V) : Mat2 V :=
  mkMat2 (g (v11 o) 0%nat) (g (v12 o) 2%nat) (g (v21 o) 1%nat) (g (v22 o) 3%nat).

(** The call [c], run in [s], logs nothing and leaves every object of [s]
    as it is. *)
Definition preserves {V A : Type} (c : M V A) (s : state V) : Prop :=
  console (snd (c s)) = console s /\
  forall l ol, heap s !! l = Some ol -> heap (snd (c s)) !! l = Some ol.

(** A binary64 matrix one of whose elements is NaN. *)
Definition has_NaN (o : Mat2 float) : bool :=
  PrimFloat.is_nan (v11 o) || PrimFloat.is_nan (v12 o) ||
  PrimFloat.is_nan (v21 o) || PrimFloat.is_nan (v22 o).


(** A state over the rationals with two matrices besides [Mat2.IDENTITY]
    and [Mat2.ZERO], for examples: [new Mat2(1, 2, 3, 4)] at 3 and
    [new Mat2(2, 1, 1, 1)] at 4. *)
Definition rational_example : state Qc :=
  snd (Mat2_new [Q2Qc 2; Q2Qc 1; Q2Qc 1; Q2Qc 1]
         (snd (Mat2_new [Q2Qc 1; Q2Qc 2; Q2Qc 3; Q2Qc 4] initial_state))).

Definition rational_example_3 : Mat2 Qc := mkMat2 (Q2Qc 1) (Q2Qc 2) (Q2Qc 3) (Q2Qc 4).

Definition rational_example_4 : Mat2 Qc := mkMat2 (Q2Qc 2) (Q2Qc 1) (Q2Qc 1) (Q2Qc 1).

(** The same two matrices in binary64. *)
Definition binary64_example : state float :=
  snd (Mat2_new [2%float; 1%float; 1%float; 1%float]
         (snd (Mat2_new [1%float; 2%float; 3%float; 4%float] initial_state))).

Definition binary64_example_3 : Mat2 float := mkMat2 1%float 2%float 3%float 4%float.

Definition binary64_example_4 : Mat2 float := mkMat2 2%float 1%float 1%float 1%float.

(** ** The [Line] distance interface

    The repository's files declare [Line] ([Line.d.ts]): its three fields,
    its constructor with two optional arguments and the signatures of its
    distance methods.  The bodies, and the classes [Vec3], [Segment], [Ray],
    [Triangle], [Polyline] and [DistanceResult], are not among the files:
    they are modelled from the specification.  The model is written once
    over the numbers, as [Mat2] is, and is run on binary64 (the
    floating-point components of section 3) and on the real numbers (exact
    arithmetic with square roots). *)

Module LineModel.

(** What vectors need of the numbers besides the operations of [Number]:
    the square root of [length] and the comparison [<] of the epsilon
    tests. *)
Class Scalar (S : Type) `{Number S} : Type := {
  num_sqrt : S -> S;
  num_lt : S -> S -> bool
}.

#[export] Instance binary64_scalar : Scalar float := {
  num_sqrt := PrimFloat.sqrt;
  num_lt := PrimFloat.ltb
}.

(** Exact arithmetic with square roots: the real numbers. *)
#[export] Instance real : Number R := {
  num_zero := 0%R;
  num_one := 1%R;
  num_add := Rplus;
  num_sub := Rminus;
  num_mul := Rmult;
  num_div := Rdiv;
  num_neg := Ropp;
  strict_eq := fun a b => if Req_dec_T a b then true else false
}.

#[export] Instance real_scalar : Scalar R := {
  num_sqrt := sqrt;
  num_lt := fun a b => if Rlt_dec a b then true else false
}.

(** Modelled from the spec: [Vec3] is missing; section 3 makes it a tuple of
    three floating-point components and section 6 lists its operations. *)
Record Vec3 (S : Type) : Type := mkVec3 { x : S; y : S; z : S }.
Arguments mkVec3 {S} _ _ _.
Arguments x {S} _.
Arguments y {S} _.
Arguments z {S} _.

(** Modelled from the spec: the other primitives are missing; section 3
    gives a segment two endpoints, a ray an origin and a direction, a
    triangle three vertices and a polyline a sequence of points. *)
Record Segment (S : Type) : Type := mkSegment { p0 : Vec3 S; p1 : Vec3 S }.
Arguments mkSegment {S} _ _.
Arguments p0 {S} _.
Arguments p1 {S} _.

Record Ray (S : Type) : Type := mkRay { ray_origin : Vec3 S; ray_direction : Vec3 S }.
Arguments mkRay {S} _ _.
Arguments ray_origin {S} _.
Arguments ray_direction {S} _.

Record Triangle (S : Type) : Type := mkTriangle { ta : Vec3 S; tb : Vec3 S; tc : Vec3 S }.
Arguments mkTriangle {S} _ _ _.
Arguments ta {S} _.
Arguments tb {S} _.
Arguments tc {S} _.

Definition Polyline (S : Type) : Type := list (Vec3 S).

(** Modelled from the spec: [DistanceResult] is missing; section 3: the
    minimum distance and the closest point on each side. *)
Record DistanceResult (S : Type) : Type := mkDistanceResult {
  distance : S;
  closestPointOnSelf : Vec3 S;
  closestPointOnOther : Vec3 S
}.
Arguments mkDistanceResult {S} _ _ _.
Arguments distance {S} _.
Arguments closestPointOnSelf {S} _.
Arguments closestPointOnOther {S} _.

(** Modelled from the spec: section 7, the error of a primitive whose
    defining points coincide. *)
Inductive error : Type := DegenerateConstruction.

(** A distance computation returns a result or fails with an error. *)
Inductive result (A : Type) : Type :=
| Ok (a : A)
| Err (e : error).
Arguments Ok {A} _.
Arguments Err {A} _.

(** The fields [Line.d.ts] declares: [origin: Vec3], [end: Vec3] and
    [direction: Vec3]. *)
Record Line (S : Type) : Type := mkLine {
  origin : Vec3 S;
  end_ : Vec3 S;
  direction : Vec3 S
}.
Arguments mkLine {S} _ _ _.
Arguments origin {S} _.
Arguments end_ {S} _.
Arguments direction {S} _.

Section Vectors.
Context {S : Type} `{Scalar S}.
Local Open Scope num_scope.

Definition vadd (a b : Vec3 S) : Vec3 S := mkVec3 (x a + x b) (y a + y b) (z a + z b).
Definition vsub (a b : Vec3 S) : Vec3 S := mkVec3 (x a - x b) (y a - y b) (z a - z b).
Definition vscale (k : S) (a : Vec3 S) : Vec3 S := mkVec3 (k * x a) (k * y a) (k * z a).
Definition vdiv (a : Vec3 S) (k : S) : Vec3 S := mkVec3 (x a / k) (y a / k) (z a / k).
Definition dot (a b : Vec3 S) : S := x a * x b + y a * y b + z a * z b.
Definition cross (a b : Vec3 S) : Vec3 S :=
  mkVec3 (y a * z b - z a * y b) (z a * x b - x a * z b) (x a * y b - y a * x b).
Definition lengthSquared (a : Vec3 S) : S := dot a a.
Definition vlength (a : Vec3 S) : S := num_sqrt (lengthSquared a).

(** Modelled from the spec: [Vec3.normalize] is missing; sections 3 and 6
    say it flags a zero-length vector and does not divide it.  [None] is the
    flag. *)
Definition normalize (a : Vec3 S) : option (Vec3 S) :=
  let len := vlength a in
  if len === 0 then None else Some (vdiv a len).

(** Modelled from the spec: the constructor of [Line] is missing.
    [Line.d.ts] gives it two optional arguments; what stands for an omitted
    one is not stated anywhere and is a parameter here.  Section 3 says
    [direction = normalize(end - origin)].  Constructing does not fail
    (section 7 puts the failure at distance-computation time) and
    [direction] is a [Vec3], so a difference that [normalize] flags is kept
    as it is, with its zero length. *)
Definition Line_new (default_origin default_end : Vec3 S)
    (origin end_ : option (Vec3 S)) : Line S :=
  let o := match origin with Some v => v | None => default_origin end in
  let e := match end_ with Some v => v | None => default_end end in
  let d := vsub e o in
  mkLine o e (match normalize d with Some u => u | None => d end).

(** Modelled from the spec: section 6, the free function [line(start, end)]
    mirrors the constructor. *)
Definition line (default_origin default_end : Vec3 S)
    (start end_ : option (Vec3 S)) : Line S :=
  Line_new default_origin default_end start end_.

(** Modelled from the spec: sections 4.1 and 7, the degenerate-construction
    condition of a line is its zero-length direction. *)
Definition degenerate (l : Line S) : bool := vlength (direction l) === 0.

(** Modelled from the spec: [Line.distancePoint] is missing; section 7: a
    degenerate line fails at distance-computation time; section 4.1,
    Line-Point: [t = dot(pt - origin, direction)], closest point
    [origin + t*direction], no clamping; section 3: the distance is
    [|closestPointOnSelf - closestPointOnOther|]. *)
Definition distancePoint (l : Line S) (pt : Vec3 S) : result (DistanceResult S) :=
  if degenerate l then Err DegenerateConstruction
  else
    let t := dot (vsub pt (origin l)) (direction l) in
    let closest := vadd (origin l) (vscale t (direction l)) in
    Ok (mkDistanceResult (vlength (vsub closest pt)) closest pt).

(** Modelled from the spec: section 4.1, Line-Line: the closest approach of
    two lines that are not parallel, by the linear system formed by the two
    directions.  The points [o1 + s*d1] and [o2 + t*d2] are closest when
    their difference is perpendicular to [d1] and to [d2]. *)
Definition skew_closest (o1 d1 o2 d2 : Vec3 S) : DistanceResult S :=
  let w := vsub o1 o2 in
  let a := dot d1 d1 in
  let b := dot d1 d2 in
  let c := dot d2 d2 in
  let d := dot d1 w in
  let e := dot d2 w in
  let s := (b * e - c * d) / (a * c - b * b) in
  let t := (a * e - b * d) / (a * c - b * b) in
  let c1 := vadd o1 (vscale s d1) in
  let c2 := vadd o2 (vscale t d2) in
  mkDistanceResult (vlength (vsub c1 c2)) c1 c2.

Section Engine.
(** The threshold below which a length counts as zero; the spec leaves its
    value open (section 9). *)
Variable epsilon : S.
(** The closest approach of a line, given by its origin and unit direction,
    to a segment, a ray, a triangle and a polyline: section 4.1 describes
    them in outline only. *)
Variable closest_segment : Vec3 S -> Vec3 S -> Segment S -> DistanceResult S.
Variable closest_ray : Vec3 S -> Vec3 S -> Ray S -> DistanceResult S.
Variable closest_triangle : Vec3 S -> Vec3 S -> Triangle S -> DistanceResult S.
Variable closest_polyline : Vec3 S -> Vec3 S -> Polyline S -> DistanceResult S.

(** Modelled from the spec: [Line.distanceLine] is missing; section 4.1,
    Line-Line: when the cross product of the directions has magnitude below
    epsilon, the distance is line-to-point using the other line's origin;
    otherwise the skew-line closest approach. *)
Definition distanceLine (l other : Line S) : result (DistanceResult S) :=
  if degenerate l || degenerate other then Err DegenerateConstruction
  else if num_lt (vlength (cross (direction l) (direction other))) epsilon then
    distancePoint l (origin other)
  else
    Ok (skew_closest (origin l) (direction l) (origin other) (direction other)).

(** Modelled from the spec: [Line.distanceSegment] is missing; section 7: a
    degenerate line fails at once; a zero-length segment is valid geometry
    (section 4.1). *)
Definition distanceSegment (l : Line S) (segment : Segment S) : result (DistanceResult S) :=
  if degenerate l then Err DegenerateConstruction
  else Ok (closest_segment (origin l) (direction l) segment).

(** Modelled from the spec: [Line.distanceRay] is missing; section 4.1: a
    ray with numerically negligible direction is degenerate too. *)
Definition distanceRay (l : Line S) (ray : Ray S) : result (DistanceResult S) :=
  if degenerate l then Err DegenerateConstruction
  else if num_lt (vlength (ray_direction ray)) epsilon then Err DegenerateConstruction
  else Ok (closest_ray (origin l) (direction l) ray).

(** Modelled from the spec: [Line.distanceTriangle] is missing; section 7: a
    degenerate line fails at once. *)
Definition distanceTriangle (l : Line S) (triangle : Triangle S) : result (DistanceResult S) :=
  if degenerate l then Err DegenerateConstruction
  else Ok (closest_triangle (origin l) (direction l) triangle).

(** Modelled from the spec: [Line.distancePolyline] is missing; section 7: a
    degenerate line fails at once. *)
Definition distancePolyline (l : Line S) (polyline : Polyline S) : result (DistanceResult S) :=
  if degenerate l then Err DegenerateConstruction
  else Ok (closest_polyline (origin l) (direction l) polyline).

End Engine.
End Vectors.

End LineModel.

(** * Properties *)

(** ** Running a computation step by step *)

Section Steps.
Context {V : Type}.

Lemma bind_returns {A B : Type} (c : M V A) (k : A -> M V B) s a s' :
  c s = (Returns a, s') -> bind c k s = k a s'.
Proof. intros E. unfold bind. now rewrite E. Qed.

Lemma bind_throws {A B : Type} (c : M V A) (k : A -> M V B) s e s' :
  c s = (Throws e, s') -> bind c k s = (Throws e, s').
Proof. intros E. unfold bind. now rewrite E. Qed.

Lemma bind_ret {A B : Type} (a : A) (k : A -> M V B) s :
  bind (ret a) k s = k a s.
Proof. reflexivity. Qed.

Lemma read_allocated (m : loc) (f : field) (s : state V) o :
  heap s !! m = Some o -> read m f s = (Returns (get_field f o), s).
Proof. intros E. unfold read. now rewrite E. Qed.

Lemma write_allocated (m : loc) (f : field) (v : V) (s : state V) o :
  heap s !! m = Some o ->
  write m f v s = (Returns tt, mkState (<[m := set_field f v o]> (heap s)) (console s)).
Proof. intros E. unfold write. now rewrite E. Qed.

(** A new object never takes the place of an existing one. *)
Lemma fresh_unallocated (s : state V) : heap s !! fresh (dom (heap s)) = None.
Proof. apply not_elem_of_dom, is_fresh. Qed.

Lemma allocated_not_fresh (s : state V) m o :
  heap s !! m = Some o -> m <> fresh (dom (heap s)).
Proof. intros E ->. rewrite fresh_unallocated in E. discriminate. Qed.

(** Allocation leaves the objects that exist where they are. *)
Lemma lookup_after_alloc (s : state V) (m : loc) (o o' : Mat2 V) :
  heap s !! m = Some o ->
  <[fresh (dom (heap s)) := o']> (heap s) !! m = Some o.
Proof.
  intros E. rewrite lookup_insert_ne; [exact E|].
  intros Hf. now apply (allocated_not_fresh s m o E).
Qed.

(** The second of two new objects is not an object of the first heap. *)
Lemma fresh_after_alloc (s : state V) (o' : Mat2 V) :
  heap s !! fresh (dom (<[fresh (dom (heap s)) := o']> (heap s))) = None.
Proof.
  destruct (heap s !! _) as [o|] eqn:E; [|reflexivity]. exfalso.
  apply (lookup_after_alloc s _ o o') in E.
  pose proof (is_fresh (dom (<[fresh (dom (heap s)) := o']> (heap s)))) as Hf.
  apply not_elem_of_dom in Hf. congruence.
Qed.

End Steps.

Section ConstructorFacts.
Context {V : Type} `{Elem V}.

Lemma destructure4_four (a b c d : V) (rest : list V) (s : state V) :
  destructure4 (a :: b :: c :: d :: rest) s = (Returns (a, b, c, d), s).
Proof. reflexivity. Qed.

(** The constructor, in full: it returns a new reference, stores the first
    four arguments (0 where there are fewer) and logs at most one warning. *)
Lemma Mat2_new_run (values : list V) (s : state V) :
  Mat2_new values s =
    (Returns (fresh (dom (heap s))),
     mkState (<[fresh (dom (heap s)) := constructed values]> (heap s))
             (console s ++ warnings values)).
Proof.
  unfold Mat2_new, alloc, warnings, constructed, element.
  set (l := fresh (dom (heap s))).
  assert (W : forall (a b c d : V) (h : gmap positive (Mat2 V)) (k : list string) (o : Mat2 V),
    (let! _ := write l f11 a in
     let! _ := write l f12 b in
     let! _ := write l f21 c in
     let! _ := write l f22 d in
     ret l) (mkState (<[l := o]> h) k)
    = (Returns l, mkState (<[l := mkMat2 a b c d]> h) k)).
  { intros a b c d h k o. unfold bind, write, ret. cbn [heap console].
    rewrite lookup_insert_eq. cbn [heap console].
    rewrite insert_insert_eq, lookup_insert_eq. cbn [heap console].
    rewrite insert_insert_eq, lookup_insert_eq. cbn [heap console].
    rewrite insert_insert_eq, lookup_insert_eq. cbn [heap console].
    rewrite insert_insert_eq. reflexivity. }
  destruct values as [|a [|b [|c [|d [|e rest]]]]].
  all: unfold bind at 1; cbn [length Nat.ltb Nat.leb];
    unfold bind at 1; cbn [console_warn ret bind slice replicate app take drop
      Nat.sub length heap console destructure4 lookup list_lookup];
    rewrite ?W; cbn [default]; rewrite ?app_nil_r; reflexivity.
Qed.

End ConstructorFacts.

(** One step of a run: a read, a write or a constructor call whose result is
    known. *)
Ltac step :=
  first
    [ rewrite bind_ret
    | erewrite bind_returns;
      [ | solve [ eapply read_allocated; eassumption
                | eapply write_allocated; eassumption
                | apply Mat2_new_run ] ] ];
  cbv beta; cbn [get_field set_field].

Section ReadOnlyMethods.
Context {V : Type} `{Elem V}.

Lemma toArray_run (m : loc) (s : state V) o :
  heap s !! m = Some o ->
  toArray m s = (Returns [[v11 o; v12 o]; [v21 o; v22 o]], s).
Proof. intros E. unfold toArray. do 4 step. reflexivity. Qed.

Lemma toFlatArray_run (m : loc) (s : state V) o :
  heap s !! m = Some o ->
  toFlatArray m s = (Returns [v11 o; v12 o; v21 o; v22 o], s).
Proof.
  intros E. unfold toFlatArray.
  erewrite bind_returns by (apply toArray_run; eassumption). reflexivity.
Qed.

Lemma constructed_four (a b c d : V) : constructed [a; b; c; d] = mkMat2 a b c d.
Proof. reflexivity. Qed.

Lemma warnings_four (a b c d : V) : warnings [a; b; c; d] = [].
Proof. reflexivity. Qed.

Lemma clone_run (m : loc) (s : state V) o :
  heap s !! m = Some o ->
  clone m s =
    (Returns (fresh (dom (heap s))),
     mkState (<[fresh (dom (heap s)) := o]> (heap s)) (console s)).
Proof.
  intros E. unfold clone. do 4 step. rewrite Mat2_new_run.
  rewrite constructed_four, warnings_four, app_nil_r. now destruct o.
Qed.

(** [forEachRowOrder] with a callback that only computes: every element is
    replaced by its image, in place. *)
Lemma forEachRowOrder_run (m : loc) (g : V -> V) (s : state V) o :
  heap s !! m = Some o ->
  forEachRowOrder m (fun v _ => ret (g v)) s =
    (Returns m,
     mkState (<[m := mkMat2 (g (v11 o)) (g (v12 o)) (g (v21 o)) (g (v22 o))]> (heap s))
             (console s)).
Proof.
  intros E. unfold forEachRowOrder.
  step. step. erewrite bind_returns by (eapply write_allocated; eassumption).
  cbv beta. cbn [set_field].
  repeat (erewrite bind_returns
            by (eapply read_allocated; cbn [heap]; apply lookup_insert_eq);
          cbv beta; cbn [get_field]; rewrite bind_ret;
          erewrite bind_returns
            by (eapply write_allocated; cbn [heap]; apply lookup_insert_eq);
          cbv beta; cbn [set_field heap console]; rewrite insert_insert_eq).
  reflexivity.
Qed.

End ReadOnlyMethods.

Section MethodFacts.
Context {N : Type} `{Number N}.
Local Open Scope num_scope.

Lemma determinant_run (m : loc) (s : state N) o :
  heap s !! m = Some o -> determinant m s = (Returns (det o), s).
Proof. intros E. unfold determinant. do 4 step. reflexivity. Qed.

Lemma equalPerElement_run (a b : loc) (s : state N) oa ob :
  heap s !! a = Some oa -> heap s !! b = Some ob ->
  equalPerElement a b s = (Returns (equal_elements oa ob), s).
Proof. intros Ea Eb. unfold equalPerElement. do 8 step. reflexivity. Qed.

(** [copyTo] overwrites the target object with the source's elements, also
    when both are the same object. *)
Lemma copyTo_run (source target : loc) (s : state N) o ot :
  heap s !! source = Some o -> heap s !! target = Some ot ->
  copyTo source (Some target) s =
    (Returns target, mkState (<[target := o]> (heap s)) (console s)).
Proof.
  intros Es Et. unfold copyTo. cbn [default].
  assert (R : forall (f : field) (o' : Mat2 N) k,
    (source = target -> get_field f o' = get_field f o) ->
    read source f (mkState (<[target := o']> (heap s)) k)
    = (Returns (get_field f o), mkState (<[target := o']> (heap s)) k)).
  { intros f o' k Hf. unfold read. cbn [heap].
    destruct (decide (source = target)) as [->|Hne].
    - rewrite lookup_insert_eq. now rewrite Hf.
    - rewrite lookup_insert_ne by congruence. now rewrite Es. }
  assert (W : forall (f : field) (v : N) (o' : Mat2 N) k,
    write target f v (mkState (<[target := o']> (heap s)) k)
    = (Returns tt, mkState (<[target := set_field f v o']> (heap s)) k)).
  { intros f v o' k. unfold write. cbn [heap console].
    now rewrite lookup_insert_eq, insert_insert_eq. }
  step. step.
  assert (Eot : source = target -> ot = o) by (intros ->; congruence).
  erewrite bind_returns by (apply R; intros e; rewrite (Eot e); now destruct o).
  cbv beta. erewrite bind_returns by apply W. cbv beta.
  erewrite bind_returns by (apply R; intros e; rewrite (Eot e); now destruct o).
  cbv beta. erewrite bind_returns by apply W. cbv beta.
  erewrite bind_returns by (apply R; intros e; rewrite (Eot e); now destruct o).
  cbv beta. erewrite bind_returns by apply W. cbv beta.
  unfold ret. cbn [get_field set_field v11 v12 v21 v22]. now destruct o.
Qed.

Lemma multiply_run (left right : loc) (s : state N) ol or :
  heap s !! left = Some ol -> heap s !! right = Some or ->
  multiply left right s =
    (Returns (fresh (dom (heap s))),
     mkState (<[fresh (dom (heap s)) := product ol or]> (heap s)) (console s)).
Proof.
  intros El Er. unfold multiply, flat.
  erewrite bind_returns by (apply toFlatArray_run; eassumption). cbv beta.
  erewrite bind_returns by apply destructure4_four. cbv beta iota.
  erewrite bind_returns by (apply toFlatArray_run; eassumption). cbv beta.
  erewrite bind_returns by apply destructure4_four. cbv beta iota.
  rewrite Mat2_new_run, constructed_four, warnings_four, app_nil_r. reflexivity.
Qed.

(** [multiplyByScalar], in full: the shared [ZERO] object when [num === 0],
    a new object holding the scaled elements otherwise. *)
Lemma multiplyByScalar_run (m : loc) (num : N) (s : state N) o :
  heap s !! m = Some o ->
  multiplyByScalar m num s =
    if num === 0 then (Returns ZERO, s)
    else (Returns (fresh (dom (heap s))),
          mkState (<[fresh (dom (heap s)) := scaled o num]> (heap s)) (console s)).
Proof.
  intros E. unfold multiplyByScalar. destruct (num === 0); [reflexivity|].
  erewrite bind_returns by (apply clone_run; eassumption). cbv beta.
  erewrite forEachRowOrder_run by (cbn [heap]; apply lookup_insert_eq).
  cbn [heap console]. now rewrite insert_insert_eq.
Qed.

(** [inverse], in full. *)
Lemma inverse_run (m : loc) (s : state N) o :
  heap s !! m = Some o ->
  inverse m s =
    if det o === 0 then (Throws "Can not be inverse !", s)
    else multiplyByScalar (fresh (dom (heap s))) (1 / det o) (with_adjugate s o).
Proof.
  intros E. unfold inverse.
  erewrite bind_returns by (apply determinant_run; eassumption). cbv beta.
  destruct (det o === 0); [reflexivity|].
  do 5 step.
  now rewrite constructed_four, warnings_four, app_nil_r.
Qed.

Lemma transpose_run (m : loc) (s : state N) o :
  heap s !! m = Some o ->
  transpose m s =
    (Returns (fresh (dom (heap s))),
     mkState (<[fresh (dom (heap s)) := mkMat2 (v11 o) (v21 o) (v12 o) (v22 o)]> (heap s))
             (console s)).
Proof.
  intros E. unfold transpose. do 4 step. rewrite Mat2_new_run.
  now rewrite constructed_four, warnings_four, app_nil_r.
Qed.

(** Loading the module creates [IDENTITY] and [ZERO], in this order, and logs
    nothing. *)
Lemma class_init_run :
  class_init empty_state = (Returns (IDENTITY, ZERO), initial_state) /\
  heap initial_state !! IDENTITY = Some identity_matrix /\
  heap initial_state !! ZERO = Some zero_matrix /\
  console initial_state = [].
Proof.
  unfold initial_state, class_init.
  erewrite bind_returns by apply Mat2_new_run. cbv beta.
  erewrite bind_returns by apply Mat2_new_run. cbv beta.
  rewrite !constructed_four, !warnings_four. cbn [heap console empty_state app ret snd].
  repeat split.
Qed.

End MethodFacts.

(** ** The constructor *)

(** C6: for every argument list, [new Mat2(...values)] returns a new object
    and never throws.  Its four elements are the arguments at indices 0, 1,
    2, 3 in the order v11, v12, v21, v22, with 0 wherever there is no such
    argument, so that fewer than four arguments are filled up with zeros (all
    four when there are none) and arguments past the fourth are dropped.  It
    logs one warning when there are fewer than four arguments, one when there
    are more, and nothing when there are exactly four; no other object
    changes. *)
Theorem constructor_fills_and_truncates {V : Type} `{Elem V}
    (values : list V) (s : state V) :
  exists (this : loc) (o : Mat2 V) (logged : list string),
    Mat2_new values s
      = (Returns this, mkState (<[this := o]> (heap s)) (console s ++ logged)) /\
    heap s !! this = None /\
    v11 o = default zero_value (values !! 0%nat) /\
    v12 o = default zero_value (values !! 1%nat) /\
    v21 o = default zero_value (values !! 2%nat) /\
    v22 o = default zero_value (values !! 3%nat) /\
    (forall a b c d, values = [a; b; c; d] -> o = mkMat2 a b c d /\ logged = []) /\
    (values = [] -> o = mkMat2 zero_value zero_value zero_value zero_value) /\
    ((length values < 4)%nat ->
       logged = ["Values length is less than 4, others will fill with ZERO."%string]) /\
    ((4 < length values)%nat ->
       logged = ["Values length is over than 4, it will be cut off."%string]).
Proof.
  exists (fresh (dom (heap s))), (constructed values), (warnings values).
  split; [apply Mat2_new_run|]. split; [apply fresh_unallocated|].
  repeat (split; [reflexivity|]).
  split; [now intros a b c d ->|]. split; [now intros ->|].
  unfold warnings. split; intros Hlen.
  - destruct (Nat.ltb_spec 4 (length values)); [lia|].
    destruct (Nat.ltb_spec (length values) 4); [reflexivity|lia].
  - destruct (Nat.ltb_spec 4 (length values)); [reflexivity|lia].
Qed.

(** The examples of the constructor's documentation, run in binary64:
    [new Mat2(1.5, -4.2, 12.1, 9.5)], [new Mat2(-3, 1.2)] and
    [new Mat2(1, 2, 3, 4, 5)] (decimal literals are written as the binary64
    values nearest to them). *)
Example constructor_documented_examples :
  let m4_2 := 0x1.0cccccccccccdp+2%float in
  let m12_1 := 0x1.8333333333333p+3%float in
  let m1_2 := 0x1.3333333333333p+0%float in
  fst ((let! m := Mat2_new [1.5%float; (- m4_2)%float; m12_1; 9.5%float] in
        toFlatArray m) initial_state)
    = Returns [1.5%float; (- m4_2)%float; m12_1; 9.5%float] /\
  fst ((let! m2 := Mat2_new [(-3)%float; m1_2] in toFlatArray m2) initial_state)
    = Returns [(-3)%float; m1_2; 0%float; 0%float] /\
  fst ((let! m3 := Mat2_new [1%float; 2%float; 3%float; 4%float; 5%float] in
        toFlatArray m3) initial_state)
    = Returns [1%float; 2%float; 3%float; 4%float] /\
  console (snd (Mat2_new [(-3)%float; m1_2] initial_state))
    = ["Values length is less than 4, others will fill with ZERO."%string] /\
  console (snd (Mat2_new [1%float; 2%float; 3%float; 4%float; 5%float] initial_state))
    = ["Values length is over than 4, it will be cut off."%string].
Proof. cbv zeta. repeat split; vm_compute; reflexivity. Qed.

(** ** [fromArray] after [toFlatArray] *)

(** C4, as the code has it: [Mat2.fromArray] takes a flat [number[]], which
    is what [Mat2.toFlatArray(m)] (the rows of [Mat2.toArray(m)], flattened)
    produces.  Feeding that array to [fromArray] yields a new object with
    exactly the four elements of [m], logs nothing and leaves [m] as it
    was. *)
Theorem fromArray_toFlatArray_round_trip {V : Type} `{Elem V}
    (m : loc) (s : state V) (o : Mat2 V) :
  heap s !! m = Some o ->
  exists (r : loc) (s' : state V),
    (let! arr := toFlatArray m in fromArray arr) s = (Returns r, s') /\
    heap s' !! r = Some o /\
    heap s' !! m = Some o /\
    r <> m /\
    console s' = console s.
Proof.
  intros E.
  exists (fresh (dom (heap s))),
         (mkState (<[fresh (dom (heap s)) := o]> (heap s)) (console s)).
  pose proof (allocated_not_fresh s m o E) as Hne.
  split.
  - erewrite bind_returns by (apply toFlatArray_run; eassumption). cbv beta.
    unfold fromArray. rewrite Mat2_new_run.
    rewrite constructed_four, warnings_four, app_nil_r. now destruct o.
  - cbn [heap console]. rewrite lookup_insert_eq, lookup_insert_ne by congruence.
    repeat split; auto.
Qed.

Lemma fromArray_toFlatArray_round_trip_witness :
  exists (r : loc) (s' : state float),
    (let! arr := toFlatArray IDENTITY in fromArray arr) initial_state = (Returns r, s') /\
    heap s' !! r = Some identity_matrix /\
    heap s' !! IDENTITY = Some identity_matrix /\
    r <> IDENTITY /\
    console s' = console (initial_state (N := float)).
Proof.
  apply (fromArray_toFlatArray_round_trip IDENTITY initial_state identity_matrix).
  reflexivity.
Defined.

(** C4, as stated, fails: [Mat2.toArray(m)] is a [number[][]], an array of
    two rows, which the type of [fromArray] excludes.  Past the type checker,
    on run-time values, the constructor sees two arguments: it logs the
    "less than 4" warning and stores the two rows in v11 and v12 and 0 in
    v21 and v22.  Here [m] is [new Mat2(1, 2, 3, 4)]. *)
Lemma fromArray_of_toArray_is_not_m :
  let one := JNum 1%float in
  let two := JNum 2%float in
  let three := JNum 3%float in
  let four := JNum 4%float in
  exists (m r : loc) (s' : state (jsval float)),
    (let! m := Mat2_new [one; two; three; four] in
     let! rows := toArray m in
     let! r := fromArray (rows_as_elements rows) in
     ret (m, r)) initial_state_erased = (Returns (m, r), s') /\
    heap s' !! m = Some (mkMat2 one two three four) /\
    heap s' !! r =
      Some (mkMat2 (JArr [one; two]) (JArr [three; four]) (JNum 0%float) (JNum 0%float)) /\
    heap s' !! r <> heap s' !! m /\
    console s' = ["Values length is less than 4, others will fill with ZERO."%string].
Proof.
  cbv zeta. exists 3%positive, 4%positive. eexists.
  split; [vm_compute; reflexivity|].
  split; [reflexivity|]. split; [reflexivity|]. split; [|reflexivity].
  vm_compute. intros E. inversion E.
Qed.

(** ** [equalPerElement] *)

(** C10: [Mat2.equalPerElement(a, b)] returns true exactly when each of the
    four pairs of corresponding elements is [===]; it changes nothing, and
    no tolerance enters the comparison. *)
Theorem equalPerElement_is_strict {N : Type} `{Number N}
    (a b : loc) (s : state N) (oa ob : Mat2 N) :
  heap s !! a = Some oa ->
  heap s !! b = Some ob ->
  exists answer : bool,
    equalPerElement a b s = (Returns answer, s) /\
    (answer = true <->
       strict_eq (v11 oa) (v11 ob) = true /\
       strict_eq (v12 oa) (v12 ob) = true /\
       strict_eq (v21 oa) (v21 ob) = true /\
       strict_eq (v22 oa) (v22 ob) = true).
Proof.
  intros Ea Eb. exists (equal_elements oa ob).
  split; [now apply equalPerElement_run|].
  unfold equal_elements. rewrite !andb_true_iff. tauto.
Qed.

Lemma equalPerElement_is_strict_witness :
  exists answer : bool,
    equalPerElement IDENTITY ZERO (initial_state (N := float)) = (Returns answer, initial_state) /\
    (answer = true <->
       strict_eq 1%float 0%float = true /\
       strict_eq 0%float 0%float = true /\
       strict_eq 0%float 0%float = true /\
       strict_eq 1%float 0%float = true).
Proof.
  apply (equalPerElement_is_strict IDENTITY ZERO initial_state
           (mkMat2 1%float 0%float 0%float 1%float)
           (mkMat2 0%float 0%float 0%float 0%float)); reflexivity.
Defined.

(** No tolerance: in binary64, [0.1 + 0.2] and [0.3] (written here as the
    binary64 values nearest to them) differ in the last bit, and two matrices
    that differ only there are not equal per element. *)
Lemma equalPerElement_no_tolerance :
  let tenth := 0x1.999999999999ap-4%float in
  let fifth := 0x1.999999999999ap-3%float in
  let three_tenths := 0x1.3333333333333p-2%float in
  let s := snd ((let! a := Mat2_new [(tenth + fifth)%float; 0%float; 0%float; 0%float] in
                 Mat2_new [three_tenths; 0%float; 0%float; 0%float]) initial_state) in
  fst (equalPerElement 3%positive 4%positive s) = Returns false.
Proof. vm_compute. reflexivity. Qed.

(** ** The shared [ZERO] object *)

(** C5, as the code has it: [Mat2.copyTo(source)], with no target, writes
    the four elements of [source] into the shared object [Mat2.ZERO] and
    returns that object.  From then on [Mat2.ZERO] holds the elements of
    [source], so it no longer holds all zeros when [source] has an element
    that is not [=== 0]; and [Mat2.multiplyByScalar(m, num)] with
    [num === 0] returns the same shared object, not a new matrix, so it
    yields the copied elements. *)
Theorem copyTo_default_overwrites_ZERO {N : Type} `{Number N}
    (source m : loc) (num : N) (s : state N) (o oz : Mat2 N) :
  heap s !! source = Some o ->
  heap s !! ZERO = Some oz ->
  strict_eq num num_zero = true ->
  exists s' : state N,
    copyTo source None s = (Returns ZERO, s') /\
    heap s' !! ZERO = Some o /\
    (all_zero o = false -> forall oz', heap s' !! ZERO = Some oz' -> all_zero oz' = false) /\
    (forall l, l <> ZERO -> heap s' !! l = heap s !! l) /\
    multiplyByScalar m num s' = (Returns ZERO, s').
Proof.
  intros Es Ez Hnum.
  exists (mkState (<[ZERO := o]> (heap s)) (console s)).
  split; [exact (copyTo_run source ZERO s o oz Es Ez)|].
  cbn [heap]. split; [apply lookup_insert_eq|].
  split.
  - intros Hnz oz'. rewrite lookup_insert_eq. congruence.
  - split.
    + intros l Hl. now rewrite lookup_insert_ne by congruence.
    + unfold multiplyByScalar. now rewrite Hnum.
Qed.

Lemma copyTo_default_overwrites_ZERO_witness :
  exists s' : state float,
    copyTo IDENTITY None initial_state = (Returns ZERO, s') /\
    heap s' !! ZERO = Some identity_matrix /\
    (all_zero (identity_matrix (N := float)) = false ->
       forall oz', heap s' !! ZERO = Some oz' -> all_zero oz' = false) /\
    (forall l, l <> ZERO -> heap s' !! l = heap (initial_state (N := float)) !! l) /\
    multiplyByScalar IDENTITY 0%float s' = (Returns ZERO, s').
Proof.
  apply (copyTo_default_overwrites_ZERO IDENTITY IDENTITY 0%float initial_state
           identity_matrix zero_matrix); reflexivity.
Defined.

(** C5, as stated, fails for a source whose elements are all zero.  After
    [Mat2.copyTo(new Mat2(0, 0, 0, 0))] the object returned is [Mat2.ZERO]
    and it still holds all zeros, and [Mat2.multiplyByScalar(IDENTITY, 0)]
    yields the zero matrix: the copied elements and the zero matrix are the
    same. *)
Lemma copyTo_default_zero_source_keeps_zeros :
  let s := snd (Mat2_new [0%float; 0%float; 0%float; 0%float] initial_state) in
  exists s' : state float,
    heap s !! 3%positive = Some zero_matrix /\
    copyTo 3%positive None s = (Returns ZERO, s') /\
    heap s' !! ZERO = Some zero_matrix /\
    all_zero (zero_matrix (N := float)) = true /\
    fst ((let! r := multiplyByScalar IDENTITY 0%float in toFlatArray r) s')
      = Returns [0%float; 0%float; 0%float; 0%float].
Proof.
  intros s.
  exists (snd (copyTo 3%positive None s)).
  repeat split; vm_compute; reflexivity.
Qed.

(** The same, run: after [Mat2.copyTo(Mat2.IDENTITY)], the matrix
    [Mat2.multiplyByScalar(Mat2.IDENTITY, 0)] reads [1, 0, 0, 1]. *)
Lemma multiplyByScalar_zero_after_copyTo :
  fst ((let! _ := copyTo IDENTITY None in
        let! z := multiplyByScalar IDENTITY 0%float in
        toFlatArray z) initial_state)
  = Returns [1%float; 0%float; 0%float; 1%float].
Proof. vm_compute. reflexivity. Qed.

(** ** binary64 arithmetic

    Facts about the run-time numbers, through the specification of Rocq's
    primitive floats ([Prim2SF] and the [SpecFloat] operations). *)

Section Binary64.
Local Open Scope Z_scope.

Lemma Prim2SF_one : Prim2SF 1%float = S754_finite false 4503599627370496 (-52).
Proof. reflexivity. Qed.

Lemma Prim2SF_zero : Prim2SF 0%float = S754_zero false.
Proof. reflexivity. Qed.

Lemma Prim2SF_infinity : Prim2SF infinity = S754_infinity false.
Proof. reflexivity. Qed.

(** A finite number is a zero or a sign, a mantissa and an exponent within
    the bounds of the format. *)
Lemma finite_cases (v : float) :
  finite v = true ->
  (exists s, Prim2SF v = S754_zero s) \/
  (exists s m e, Prim2SF v = S754_finite s m e /\ SpecFloat.bounded prec emax m e = true).
Proof.
  unfold finite, is_finite, is_nan, is_infinity.
  rewrite !FloatAxioms.eqb_spec, abs_spec, Prim2SF_infinity.
  pose proof (Prim2SF_valid v) as Hv.
  destruct (Prim2SF v) as [s|[]| |s m e]; cbn in *; try discriminate; eauto 6.
Qed.

Lemma mul_two_to_52 (m : positive) :
  (m * 4503599627370496)%positive = with_zero_bits 52 m.
Proof. rewrite Pos.mul_comm. reflexivity. Qed.

Lemma digits_with_zero_bits (k : nat) (m : positive) :
  Zpos (digits2_pos (with_zero_bits k m)) = Zpos (digits2_pos m) + Z.of_nat k.
Proof.
  induction k as [|k IH]; cbn [with_zero_bits digits2_pos]; [lia|].
  rewrite Pos2Z.inj_succ, IH. lia.
Qed.

(** Rounding the exact product [m * 2^52 * 2^(e - 52)] discards the 52 zero
    bits and nothing else. *)
Lemma shr_fexp_product (m : positive) (e : Z) :
  fexp prec emax (Z.pos (digits2_pos m) + e) = e ->
  shr_fexp prec emax (Z.pos (with_zero_bits 52 m)) (e + -52) loc_Exact
  = (Build_shr_record (Z.pos m) false false, e).
Proof.
  intros Hc. unfold shr_fexp, Zdigits2. rewrite digits_with_zero_bits.
  replace (Z.pos (digits2_pos m) + Z.of_nat 52 + (e + -52))
    with (Z.pos (digits2_pos m) + e) by lia.
  rewrite Hc. replace (e - (e + -52)) with 52 by lia.
  unfold shr. replace (e + -52 + 52) with e by lia. reflexivity.
Qed.

Lemma shr_fexp_canonical (m : positive) (e : Z) :
  fexp prec emax (Z.pos (digits2_pos m) + e) = e ->
  shr_fexp prec emax (Z.pos m) e loc_Exact
  = (Build_shr_record (Z.pos m) false false, e).
Proof.
  intros Hc. unfold shr_fexp, Zdigits2. rewrite Hc, Z.sub_diag. reflexivity.
Qed.

(** [x * 1] is [x], exactly. *)
Lemma SF64mul_one (s : bool) (m : positive) (e : Z) :
  SpecFloat.bounded prec emax m e = true ->
  SF64mul (S754_finite s m e) (S754_finite false 4503599627370496 (-52))
  = S754_finite s m e.
Proof.
  intros Hb. unfold SpecFloat.bounded, canonical_mantissa in Hb.
  apply andb_prop in Hb as [Hc He]. apply Z.eqb_eq in Hc.
  unfold SF64mul, SFmul. rewrite xorb_false_r, mul_two_to_52.
  unfold binary_round_aux. rewrite (shr_fexp_product _ _ Hc).
  cbn [shr_m loc_of_shr_record round_nearest_even].
  rewrite (shr_fexp_canonical _ _ Hc). cbn [shr_m]. now rewrite He.
Qed.

Lemma SFeqb_finite_refl (s : bool) (m : positive) (e : Z) :
  SFeqb (S754_finite s m e) (S754_finite s m e) = true.
Proof.
  unfold SFeqb, SFcompare. rewrite Z.compare_refl, Pos.compare_cont_refl.
  now destruct s.
Qed.

Lemma SF64mul_comm (x y : spec_float) : SF64mul x y = SF64mul y x.
Proof.
  destruct x as [sx|sx| |sx mx ex], y as [sy|sy| |sy my ey]; cbn;
    rewrite ?(xorb_comm sx sy); try reflexivity.
  now rewrite (Pos.mul_comm mx my), (Z.add_comm ex ey).
Qed.

Lemma float_mul_comm (x y : float) : (x * y)%float = (y * x)%float.
Proof. apply Prim2SF_inj. rewrite !mul_spec. apply SF64mul_comm. Qed.

(** The first-row, first-column element of [M * IDENTITY]. *)
Lemma float_identity_left (v w : float) :
  finite v = true -> finite w = true ->
  ((v * 1 + w * 0) =? v)%float = true.
Proof.
  intros Hv Hw.
  rewrite FloatAxioms.eqb_spec, add_spec, !mul_spec, Prim2SF_one, Prim2SF_zero.
  destruct (finite_cases v Hv) as [[s ->]|(s & m & e & -> & Hb)];
  destruct (finite_cases w Hw) as [[s' ->]|(s' & m' & e' & -> & Hb')];
  rewrite ?SF64mul_one by assumption; cbn;
  try apply SFeqb_finite_refl; now destruct s, s'.
Qed.

(** The first-row, second-column element of [M * IDENTITY]. *)
Lemma float_identity_right (v w : float) :
  finite v = true -> finite w = true ->
  ((v * 0 + w * 1) =? w)%float = true.
Proof.
  intros Hv Hw.
  rewrite FloatAxioms.eqb_spec, add_spec, !mul_spec, Prim2SF_one, Prim2SF_zero.
  destruct (finite_cases v Hv) as [[s ->]|(s & m & e & -> & Hb)];
  destruct (finite_cases w Hw) as [[s' ->]|(s' & m' & e' & -> & Hb')];
  rewrite ?SF64mul_one by assumption; cbn;
  try apply SFeqb_finite_refl; now destruct s, s'.
Qed.

(** [num === 0] holds of the two zeros only. *)
Lemma strict_eq_zero_cases (num : float) :
  (num =? 0)%float = true -> exists s, Prim2SF num = S754_zero s.
Proof.
  rewrite FloatAxioms.eqb_spec, Prim2SF_zero.
  destruct (Prim2SF num) as [s|[]| |[] m e]; cbn; try discriminate; eauto.
Qed.

(** A zero times a finite number is a zero. *)
Lemma float_zero_product (num v : float) :
  (num =? 0)%float = true -> finite v = true ->
  (0 =? num * v)%float = true.
Proof.
  intros Hn Hv. rewrite FloatAxioms.eqb_spec, mul_spec, Prim2SF_zero.
  destruct (strict_eq_zero_cases num Hn) as [s ->].
  destruct (finite_cases v Hv) as [[s' ->]|(s' & m & e & -> & _)]; reflexivity.
Qed.

End Binary64.

(** ** Multiplication by the identity *)

(** C3, as the code has it: for every matrix [M] of finite binary64 numbers,
    while [Mat2.IDENTITY] holds the elements the class gave it,
    [Mat2.multiply(M, Mat2.IDENTITY)] is a new matrix that
    [Mat2.equalPerElement] finds equal to [M], and [M] is unchanged. *)
Theorem multiply_IDENTITY_finite (m : loc) (s : state float) (o : Mat2 float) :
  heap s !! m = Some o ->
  heap s !! IDENTITY = Some identity_matrix ->
  finite_matrix o = true ->
  exists (r : loc) (s' : state float),
    multiply m IDENTITY s = (Returns r, s') /\
    heap s' !! m = Some o /\
    equalPerElement r m s' = (Returns true, s').
Proof.
  intros E Ei Hf.
  exists (fresh (dom (heap s))),
    (mkState (<[fresh (dom (heap s)) := product o identity_matrix]> (heap s)) (console s)).
  split; [now apply multiply_run|].
  assert (Em : <[fresh (dom (heap s)) := product o identity_matrix]> (heap s) !! m = Some o)
    by now apply lookup_after_alloc.
  split; [exact Em|].
  rewrite (equalPerElement_run _ _ _ (product o identity_matrix) o)
    by (cbn [heap]; first [apply lookup_insert_eq | exact Em]).
  f_equal. f_equal.
  unfold finite_matrix in Hf. rewrite !andb_true_iff in Hf.
  destruct Hf as [[[Ha Hb] Hc] Hd].
  unfold equal_elements, product, identity_matrix.
  cbn [v11 v12 v21 v22 num_add num_mul num_zero num_one strict_eq binary64].
  change PrimFloat.one with 1%float. change PrimFloat.zero with 0%float.
  now rewrite !float_identity_left, !float_identity_right by assumption.
Qed.

Lemma multiply_IDENTITY_finite_witness :
  let o := mkMat2 1.5%float (-4.5)%float 12.25%float 9.5%float in
  let s := snd (Mat2_new [1.5%float; (-4.5)%float; 12.25%float; 9.5%float] initial_state) in
  exists (r : loc) (s' : state float),
    multiply 3%positive IDENTITY s = (Returns r, s') /\
    heap s' !! 3%positive = Some o /\
    equalPerElement r 3%positive s' = (Returns true, s').
Proof.
  intros o s. apply (multiply_IDENTITY_finite 3%positive s o); reflexivity.
Defined.

(** C3, as stated for every [M], fails in two ways.  With an infinite
    element, [Infinity * 0] is [NaN]: for [M = new Mat2(Infinity, 0, 0, 0)]
    the product is [Infinity, NaN, 0, 0].  And [Mat2.IDENTITY] is a shared
    object that [copyTo] can overwrite: after
    [Mat2.copyTo(Mat2.ZERO, Mat2.IDENTITY)] the product of
    [new Mat2(1, 2, 3, 4)] and [Mat2.IDENTITY] is the zero matrix. *)
Lemma multiply_IDENTITY_not_always_equal :
  fst ((let! m := Mat2_new [infinity; 0%float; 0%float; 0%float] in
        let! r := multiply m IDENTITY in
        equalPerElement r m) initial_state) = Returns false /\
  fst ((let! m := Mat2_new [infinity; 0%float; 0%float; 0%float] in
        let! r := multiply m IDENTITY in
        toFlatArray r) initial_state) = Returns [infinity; nan; 0%float; 0%float] /\
  fst ((let! _ := copyTo ZERO (Some IDENTITY) in
        let! m := Mat2_new [1%float; 2%float; 3%float; 4%float] in
        let! r := multiply m IDENTITY in
        equalPerElement r m) initial_state) = Returns false.
Proof. repeat split; vm_compute; reflexivity. Qed.

(** ** [multiplyByScalar] *)

(** C9, as the code has it: [Mat2.multiplyByScalar(m, num)] changes no
    object that exists, [m] included: it returns a new object, or the shared
    [Mat2.ZERO] object when [num === 0].  While [Mat2.ZERO] holds zeros, each
    element of the result is [num] times the corresponding element of [m],
    provided that the elements of [m] are finite when [num === 0]. *)
Theorem multiplyByScalar_frame_and_product
    (m : loc) (num : float) (s : state float) (o : Mat2 float) :
  heap s !! m = Some o ->
  heap s !! ZERO = Some zero_matrix ->
  (strict_eq num 0%float = true -> finite_matrix o = true) ->
  exists (r : loc) (s' : state float) (result : Mat2 float),
    multiplyByScalar m num s = (Returns r, s') /\
    (forall l ol, heap s !! l = Some ol -> heap s' !! l = Some ol) /\
    heap s' !! m = Some o /\
    heap s' !! r = Some result /\
    same_number (v11 result) (num * v11 o)%float /\
    same_number (v12 result) (num * v12 o)%float /\
    same_number (v21 result) (num * v21 o)%float /\
    same_number (v22 result) (num * v22 o)%float /\
    (strict_eq num 0%float = true -> r = ZERO /\ s' = s) /\
    (strict_eq num 0%float = false -> heap s !! r = None).
Proof.
  intros E Ez Hfin. pose proof (multiplyByScalar_run m num s o E) as Hrun.
  cbn [num_zero binary64] in Hrun. change PrimFloat.zero with 0%float in Hrun.
  destruct (strict_eq num 0%float) eqn:Hnum.
  - exists ZERO, s, zero_matrix.
    specialize (Hfin eq_refl). unfold finite_matrix in Hfin.
    rewrite !andb_true_iff in Hfin. destruct Hfin as [[[Ha Hb] Hc] Hd].
    cbn [strict_eq binary64] in Hnum.
    repeat split; auto; try discriminate; right;
      cbn [zero_matrix v11 v12 v21 v22 num_zero binary64];
      now apply float_zero_product.
  - exists (fresh (dom (heap s))),
      (mkState (<[fresh (dom (heap s)) := scaled o num]> (heap s)) (console s)),
      (scaled o num).
    cbn [heap].
    repeat split; try discriminate.
    + exact Hrun.
    + intros l ol El. now apply lookup_after_alloc.
    + now apply lookup_after_alloc.
    + apply lookup_insert_eq.
    + left. apply float_mul_comm.
    + left. apply float_mul_comm.
    + left. apply float_mul_comm.
    + left. apply float_mul_comm.
    + intros _. apply fresh_unallocated.
Qed.

Lemma multiplyByScalar_frame_and_product_witness :
  let o := mkMat2 1.5%float (-4.5)%float 12.25%float 9.5%float in
  let s := snd (Mat2_new [1.5%float; (-4.5)%float; 12.25%float; 9.5%float] initial_state) in
  let num := 0%float in
  exists (r : loc) (s' : state float) (result : Mat2 float),
    multiplyByScalar 3%positive num s = (Returns r, s') /\
    (forall l ol, heap s !! l = Some ol -> heap s' !! l = Some ol) /\
    heap s' !! 3%positive = Some o /\
    heap s' !! r = Some result /\
    same_number (v11 result) (num * v11 o)%float /\
    same_number (v12 result) (num * v12 o)%float /\
    same_number (v21 result) (num * v21 o)%float /\
    same_number (v22 result) (num * v22 o)%float /\
    (strict_eq num 0%float = true -> r = ZERO /\ s' = s) /\
    (strict_eq num 0%float = false -> heap s !! r = None).
Proof.
  intros o s num.
  apply (multiplyByScalar_frame_and_product 3%positive num s o); reflexivity.
Defined.

(** C9, as stated for every [m] and [num], fails on an infinite element:
    for [m = new Mat2(Infinity, 1, 2, 3)] and [num = 0] the result is the
    shared zero matrix, whose first element is 0, while
    [0 * Infinity] is [NaN]. *)
Lemma multiplyByScalar_zero_times_infinity :
  fst ((let! m := Mat2_new [infinity; 1%float; 2%float; 3%float] in
        let! r := multiplyByScalar m 0%float in
        toFlatArray r) initial_state)
    = Returns [0%float; 0%float; 0%float; 0%float] /\
  (0 * infinity)%float = nan /\
  ~ same_number 0%float (0 * infinity)%float.
Proof.
  split; [vm_compute; reflexivity|]. split; [reflexivity|].
  intros [E|E].
  - apply (f_equal PrimFloat.is_nan) in E. vm_compute in E. discriminate.
  - vm_compute in E. discriminate.
Qed.

(** ** Exact arithmetic *)

#[export] Instance rational_exact : ExactArithmetic Qc.
Proof.
  split.
  - constructor.
    + exact Qcrt.
    + exact (F_1_neq_0 Qcft).
    + intros p q. cbn. unfold Qcdiv. now rewrite Qcmult_1_l.
    + intros p Hp. cbn. unfold Qcdiv. rewrite Qcmult_1_l. now apply Qcmult_inv_l.
  - intros v w. cbn. destruct (Qc_eq_dec v w); split; congruence.
Qed.

(** [inverse] on a matrix whose determinant and its reciprocal are both
    [!== 0]: a new object holding the scaled adjugate; nothing else changes. *)
Lemma inverse_returns {N : Type} `{Number N} (m : loc) (s : state N) (o : Mat2 N) :
  heap s !! m = Some o ->
  strict_eq (det o) num_zero = false ->
  strict_eq (num_div num_one (det o)) num_zero = false ->
  exists (r : loc) (s' : state N),
    inverse m s = (Returns r, s') /\
    heap s' !! r = Some (scaled (adjugate o) (num_div num_one (det o))) /\
    (forall l ol, heap s !! l = Some ol -> heap s' !! l = Some ol) /\
    console s' = console s.
Proof.
  intros E Hd Hk. pose proof (inverse_run m s o E) as Hrun. rewrite Hd in Hrun.
  rewrite (multiplyByScalar_run _ _ _ (adjugate o)) in Hrun
    by (unfold with_adjugate; cbn [heap]; apply lookup_insert_eq).
  rewrite Hk in Hrun.
  eexists _, _. split; [exact Hrun|]. cbn [heap console].
  split; [apply lookup_insert_eq|]. split; [|reflexivity].
  intros l ol El. apply (lookup_after_alloc (with_adjugate s o)).
  unfold with_adjugate. cbn [heap]. now apply lookup_after_alloc.
Qed.

Section Exact.
Context {N : Type} `{ExactArithmetic N}.
Local Open Scope num_scope.

Add Field exact_arithmetic : exact_field.

Lemma strict_eq_refl (v : N) : (v === v) = true.
Proof. now apply exact_strict_eq. Qed.

Lemma strict_eq_false (v w : N) : (v === w) = false <-> v <> w.
Proof.
  rewrite <- not_true_iff_false. now rewrite exact_strict_eq.
Qed.

Lemma reciprocal_nonzero (v : N) : v <> 0 -> 1 / v <> 0.
Proof.
  intros Hv Hk. apply (F_1_neq_0 exact_field).
  transitivity (v * (1 / v)); [field; exact Hv | rewrite Hk; ring].
Qed.

(** The determinant of the inverse is the reciprocal of the determinant. *)
Lemma det_inverse (o : Mat2 N) :
  det o <> 0 -> det (scaled (adjugate o) (1 / det o)) = 1 / det o.
Proof.
  intros Hd. unfold det in *. cbn [scaled adjugate v11 v12 v21 v22].
  field. exact Hd.
Qed.

(** Inverting the inverse gives the elements back. *)
Lemma inverse_inverse_elements (o : Mat2 N) :
  det o <> 0 ->
  scaled (adjugate (scaled (adjugate o) (1 / det o))) (1 / (1 / det o)) = o.
Proof.
  intros Hd. pose proof (reciprocal_nonzero _ Hd) as Hk.
  destruct o as [a b c d]. unfold det in *.
  unfold scaled, adjugate. cbn [v11 v12 v21 v22] in *.
  f_equal; field; (split; [exact Hd | exact (F_1_neq_0 exact_field)]).
Qed.

(** The scaled adjugate is the inverse, on both sides. *)
Lemma product_inverse_right (o : Mat2 N) :
  det o <> 0 -> product o (scaled (adjugate o) (1 / det o)) = identity_matrix.
Proof.
  intros Hd. destruct o as [a b c d]. unfold det in *.
  unfold product, scaled, adjugate, identity_matrix. cbn [v11 v12 v21 v22] in *.
  f_equal; field; exact Hd.
Qed.

Lemma product_inverse_left (o : Mat2 N) :
  det o <> 0 -> product (scaled (adjugate o) (1 / det o)) o = identity_matrix.
Proof.
  intros Hd. destruct o as [a b c d]. unfold det in *.
  unfold product, scaled, adjugate, identity_matrix. cbn [v11 v12 v21 v22] in *.
  f_equal; field; exact Hd.
Qed.

(** C2, as the code has it: under exact arithmetic, for every [M] whose
    determinant is not zero, [Mat2.inverse(M)] returns a matrix whose
    determinant is again not zero, [Mat2.inverse] of that matrix returns
    without throwing, and the result has exactly the elements of [M]:
    [Mat2.equalPerElement] finds them equal. *)
Theorem inverse_inverse_exact (m : loc) (s : state N) (o : Mat2 N) :
  heap s !! m = Some o ->
  (det o === 0) = false ->
  exists (r1 : loc) (s1 : state N) (inner : Mat2 N) (r2 : loc) (s2 : state N),
    inverse m s = (Returns r1, s1) /\
    heap s1 !! r1 = Some inner /\
    (det inner === 0) = false /\
    inverse r1 s1 = (Returns r2, s2) /\
    heap s2 !! r2 = Some o /\
    heap s2 !! m = Some o /\
    equalPerElement r2 m s2 = (Returns true, s2).
Proof.
  intros E Hd. pose proof (proj1 (strict_eq_false _ _) Hd) as Hd'.
  pose proof (reciprocal_nonzero _ Hd') as Hk.
  destruct (inverse_returns m s o E Hd (proj2 (strict_eq_false _ _) Hk))
    as (r1 & s1 & Hr1 & E1 & Hframe1 & _).
  set (inner := scaled (adjugate o) (1 / det o)) in *.
  assert (Hdi : det inner = 1 / det o) by now apply det_inverse.
  assert (Hd1 : (det inner === 0) = false)
    by (apply strict_eq_false; now rewrite Hdi).
  assert (Hk1 : (1 / det inner === 0) = false).
  { apply strict_eq_false, reciprocal_nonzero. now rewrite Hdi. }
  destruct (inverse_returns r1 s1 inner E1 Hd1 Hk1)
    as (r2 & s2 & Hr2 & E2 & Hframe2 & _).
  rewrite Hdi in E2. unfold inner in E2.
  rewrite (inverse_inverse_elements o Hd') in E2.
  exists r1, s1, inner, r2, s2.
  assert (Em : heap s2 !! m = Some o) by auto.
  repeat split; auto.
  rewrite (equalPerElement_run _ _ _ o o) by assumption.
  unfold equal_elements. now rewrite !strict_eq_refl.
Qed.

(** Under exact arithmetic, while [Mat2.IDENTITY] holds the elements the class
    gave it, [Mat2.multiply(M, Mat2.IDENTITY)] is a new matrix, an object
    that did not exist before, with exactly the elements of [M], for every
    [M]; no object that exists is changed and nothing is logged. *)
Theorem multiply_IDENTITY_exact (m : loc) (s : state N) (o : Mat2 N) :
  heap s !! m = Some o ->
  heap s !! IDENTITY = Some identity_matrix ->
  exists (r : loc) (s' : state N),
    multiply m IDENTITY s = (Returns r, s') /\
    heap s !! r = None /\
    heap s' !! r = Some o /\
    heap s' !! m = Some o /\
    (forall l ol, heap s !! l = Some ol -> heap s' !! l = Some ol) /\
    console s' = console s /\
    equalPerElement r m s' = (Returns true, s').
Proof.
  intros E Ei.
  assert (Hp : product o identity_matrix = o).
  { destruct o as [a b c d]. unfold product, identity_matrix.
    cbn [v11 v12 v21 v22]. f_equal; ring. }
  exists (fresh (dom (heap s))),
    (mkState (<[fresh (dom (heap s)) := o]> (heap s)) (console s)).
  rewrite (multiply_run _ _ _ o identity_matrix E Ei), Hp. cbn [heap console].
  assert (Em : <[fresh (dom (heap s)) := o]> (heap s) !! m = Some o)
    by now apply lookup_after_alloc.
  split; [reflexivity|]. split; [apply fresh_unallocated|].
  split; [apply lookup_insert_eq|]. split; [exact Em|].
  split; [intros l ol El; now apply lookup_after_alloc|].
  split; [reflexivity|].
  rewrite (equalPerElement_run _ _ _ o o)
    by (cbn [heap]; first [apply lookup_insert_eq | exact Em]).
  unfold equal_elements. now rewrite !strict_eq_refl.
Qed.

(** Under exact arithmetic, while [Mat2.ZERO] holds zeros, every element of
    [Mat2.multiplyByScalar(m, num)] is the element of [m] times [num], for
    every [m] and [num]; no object that exists is changed. *)
Theorem multiplyByScalar_exact (m : loc) (num : N) (s : state N) (o : Mat2 N) :
  heap s !! m = Some o ->
  heap s !! ZERO = Some zero_matrix ->
  exists (r : loc) (s' : state N),
    multiplyByScalar m num s = (Returns r, s') /\
    heap s' !! r = Some (scaled o num) /\
    (forall l ol, heap s !! l = Some ol -> heap s' !! l = Some ol).
Proof.
  intros E Ez. rewrite (multiplyByScalar_run m num s o E).
  destruct (num === 0) eqn:Hnum.
  - apply exact_strict_eq in Hnum. subst num.
    exists ZERO, s. repeat split; auto. rewrite Ez. f_equal.
    destruct o as [a b c d]. unfold zero_matrix, scaled. cbn [v11 v12 v21 v22].
    f_equal; ring.
  - eexists _, _. split; [reflexivity|]. cbn [heap].
    split; [apply lookup_insert_eq|].
    intros l ol El. now apply lookup_after_alloc.
Qed.

End Exact.

Lemma inverse_inverse_exact_witness :
  let one := Q2Qc 1 in
  let two := Q2Qc 2 in
  let three := Q2Qc 3 in
  let four := Q2Qc 4 in
  let o := mkMat2 one two three four in
  let s := snd (Mat2_new [one; two; three; four] initial_state) in
  exists (r1 : loc) (s1 : state Qc) (inner : Mat2 Qc) (r2 : loc) (s2 : state Qc),
    inverse 3%positive s = (Returns r1, s1) /\
    heap s1 !! r1 = Some inner /\
    strict_eq (det inner) num_zero = false /\
    inverse r1 s1 = (Returns r2, s2) /\
    heap s2 !! r2 = Some o /\
    heap s2 !! 3%positive = Some o /\
    equalPerElement r2 3%positive s2 = (Returns true, s2).
Proof.
  intros one two three four o s.
  apply (inverse_inverse_exact 3%positive s o); reflexivity.
Defined.

(** C2, as stated for binary64, fails when the determinant overflows.  For
    [M = new Mat2(2**600, 0, 0, 2**600)] the determinant is [Infinity], which
    is not [=== 0]; [1 / Infinity] is 0, so [Mat2.inverse(M)] returns the
    shared [Mat2.ZERO] object, whose determinant is 0, and
    [Mat2.inverse(Mat2.inverse(M))] throws. *)
Lemma inverse_inverse_overflow_throws :
  let big := 0x1p600%float in
  let o := mkMat2 big 0%float 0%float big in
  let s := snd (Mat2_new [big; 0%float; 0%float; big] initial_state) in
  heap s !! 3%positive = Some o /\
  fst (determinant 3%positive s) = Returns infinity /\
  strict_eq (det o) 0%float = false /\
  fst (inverse 3%positive s) = Returns ZERO /\
  fst ((let! inner := inverse 3%positive in toFlatArray inner) s)
    = Returns [0%float; 0%float; 0%float; 0%float] /\
  fst ((let! inner := inverse 3%positive in inverse inner) s)
    = Throws "Can not be inverse !" /\
  ~ (exists (r1 : loc) (s1 : state float) (inner : Mat2 float) (r2 : loc) (s2 : state float),
       inverse 3%positive s = (Returns r1, s1) /\
       heap s1 !! r1 = Some inner /\
       strict_eq (det inner) 0%float = false /\
       inverse r1 s1 = (Returns r2, s2) /\
       heap s2 !! r2 = Some o /\
       heap s2 !! 3%positive = Some o /\
       equalPerElement r2 3%positive s2 = (Returns true, s2)).
Proof.
  cbv zeta. repeat (split; [vm_compute; reflexivity|]).
  intros (r1 & s1 & inner & r2 & s2 & H1 & H2 & H3 & _).
  vm_compute in H1. injection H1 as <- <-.
  vm_compute in H2. injection H2 as <-.
  vm_compute in H3. discriminate.
Qed.

Lemma multiply_IDENTITY_exact_witness :
  let one := Q2Qc 1 in
  let two := Q2Qc 2 in
  let three := Q2Qc 3 in
  let four := Q2Qc 4 in
  let o := mkMat2 one two three four in
  let s := snd (Mat2_new [one; two; three; four] initial_state) in
  exists (r : loc) (s' : state Qc),
    multiply 3%positive IDENTITY s = (Returns r, s') /\
    heap s !! r = None /\
    heap s' !! r = Some o /\
    heap s' !! 3%positive = Some o /\
    (forall l ol, heap s !! l = Some ol -> heap s' !! l = Some ol) /\
    console s' = console s /\
    equalPerElement r 3%positive s' = (Returns true, s').
Proof.
  intros one two three four o s.
  apply (multiply_IDENTITY_exact 3%positive s o); reflexivity.
Defined.

Lemma multiplyByScalar_exact_witness :
  let one := Q2Qc 1 in
  let two := Q2Qc 2 in
  let three := Q2Qc 3 in
  let four := Q2Qc 4 in
  let o := mkMat2 one two three four in
  let s := snd (Mat2_new [one; two; three; four] initial_state) in
  exists (r : loc) (s' : state Qc),
    multiplyByScalar 3%positive (Q2Qc 0) s = (Returns r, s') /\
    heap s' !! r = Some (scaled o (Q2Qc 0)) /\
    (forall l ol, heap s !! l = Some ol -> heap s' !! l = Some ol).
Proof.
  intros one two three four o s.
  apply (multiplyByScalar_exact 3%positive (Q2Qc 0) s o); reflexivity.
Defined.

(** ** [transpose] *)

(** [Mat2.transpose(m)] returns a new matrix, an object that did not exist
    before, with the elements of [m] mirrored in the diagonal; transposing
    that one gives another new matrix, with the elements of [m].  Neither
    call changes an object that exists, and nothing is logged. *)
Theorem transpose_transpose {N : Type} `{Number N} (m : loc) (s : state N) (o : Mat2 N) :
  heap s !! m = Some o ->
  exists (t : loc) (s1 : state N) (r : loc) (s2 : state N),
    transpose m s = (Returns t, s1) /\
    heap s !! t = None /\
    heap s1 !! t = Some (transposed o) /\
    transpose t s1 = (Returns r, s2) /\
    (let! t := transpose m in transpose t) s = (Returns r, s2) /\
    heap s1 !! r = None /\
    heap s2 !! r = Some o /\
    heap s2 !! t = Some (transposed o) /\
    heap s2 !! m = Some o /\
    (forall l ol, heap s !! l = Some ol -> heap s2 !! l = Some ol) /\
    console s2 = console s.
Proof.
  intros E.
  set (s1 := with_new s (transposed o)).
  assert (Ht : heap s1 !! fresh (dom (heap s)) = Some (transposed o))
    by apply lookup_insert_eq.
  assert (H1 : transpose m s = (Returns (fresh (dom (heap s))), s1))
    by now apply transpose_run.
  assert (H2 : transpose (fresh (dom (heap s))) s1
               = (Returns (fresh (dom (heap s1))), with_new s1 o)).
  { rewrite (transpose_run _ _ (transposed o) Ht). unfold with_new, transposed.
    cbn [v11 v12 v21 v22]. now destruct o. }
  assert (Hframe : forall l ol, heap s !! l = Some ol ->
                     heap (with_new s1 o) !! l = Some ol).
  { intros l ol El. apply lookup_after_alloc. now apply lookup_after_alloc. }
  exists (fresh (dom (heap s))), s1, (fresh (dom (heap s1))), (with_new s1 o).
  split; [exact H1|]. split; [apply fresh_unallocated|]. split; [exact Ht|].
  split; [exact H2|].
  split; [erewrite bind_returns by exact H1; exact H2|].
  split; [apply fresh_unallocated|]. split; [apply lookup_insert_eq|].
  split; [now apply lookup_after_alloc|]. split; [now apply Hframe|].
  split; [exact Hframe | reflexivity].
Qed.

Lemma transpose_transpose_witness :
  let s := binary64_example in
  let o := binary64_example_3 in
  exists (t : loc) (s1 : state float) (r : loc) (s2 : state float),
    transpose 3%positive s = (Returns t, s1) /\
    heap s !! t = None /\
    heap s1 !! t = Some (transposed o) /\
    transpose t s1 = (Returns r, s2) /\
    (let! t := transpose 3%positive in transpose t) s = (Returns r, s2) /\
    heap s1 !! r = None /\
    heap s2 !! r = Some o /\
    heap s2 !! t = Some (transposed o) /\
    heap s2 !! 3%positive = Some o /\
    (forall l ol, heap s !! l = Some ol -> heap s2 !! l = Some ol) /\
    console s2 = console s.
Proof.
  intros s o.
  apply (transpose_transpose 3%positive s o). reflexivity.
Defined.

(** ** [inverse] and the determinant *)

(** C1, as the code has it: [Mat2.determinant(m)] is [v11*v22 - v12*v21],
    and [Mat2.inverse(m)] throws exactly when that determinant is [=== 0],
    leaving every object as it was.  Otherwise it returns a matrix: the
    adjugate [(v22, -v12, -v21, v11)] scaled by [1 / det] in a new object, or
    the shared [Mat2.ZERO] object in the one case where [1 / det] is itself
    [=== 0], as [multiplyByScalar] decides.  Under exact arithmetic
    [1 / det] is never 0 and the matrix returned is the inverse of [m]: its
    products with [m] are the identity and its determinant is not 0. *)
Theorem inverse_throws_iff_determinant_zero {N : Type} `{Number N}
    (m : loc) (s : state N) (o oz : Mat2 N) :
  heap s !! m = Some o ->
  heap s !! ZERO = Some oz ->
  let d := num_sub (num_mul (v11 o) (v22 o)) (num_mul (v12 o) (v21 o)) in
  let k := num_div num_one d in
  determinant m s = (Returns d, s) /\
  ((exists e s', inverse m s = (Throws e, s')) <-> strict_eq d num_zero = true) /\
  (strict_eq d num_zero = true ->
     inverse m s = (Throws "Can not be inverse !", s)) /\
  (strict_eq d num_zero = false ->
     exists (r : loc) (s' : state N) (result : Mat2 N),
       inverse m s = (Returns r, s') /\
       heap s' !! r = Some result /\
       heap s' !! m = Some o /\
       (strict_eq k num_zero = false ->
          result = scaled (adjugate o) k /\ heap s !! r = None) /\
       (strict_eq k num_zero = true -> r = ZERO /\ result = oz)) /\
  (ExactArithmetic N -> strict_eq d num_zero = false ->
     strict_eq k num_zero = false /\
     product o (scaled (adjugate o) k) = identity_matrix /\
     product (scaled (adjugate o) k) o = identity_matrix /\
     strict_eq (det (scaled (adjugate o) k)) num_zero = false).
Proof.
  intros E Ez d k.
  assert (Hd : d = det o) by reflexivity.
  pose proof (inverse_run m s o E) as Hrun. rewrite <- Hd in Hrun. fold k in Hrun.
  assert (Hret : strict_eq d num_zero = false ->
    exists (r : loc) (s' : state N) (result : Mat2 N),
       inverse m s = (Returns r, s') /\
       heap s' !! r = Some result /\
       heap s' !! m = Some o /\
       (strict_eq k num_zero = false ->
          result = scaled (adjugate o) k /\ heap s !! r = None) /\
       (strict_eq k num_zero = true -> r = ZERO /\ result = oz)).
  { intros Hnz. rewrite Hnz in Hrun.
    rewrite (multiplyByScalar_run _ _ _ (adjugate o)) in Hrun
      by (unfold with_adjugate; cbn [heap]; apply lookup_insert_eq).
    destruct (strict_eq k num_zero) eqn:Hk.
    - exists ZERO, (with_adjugate s o), oz. split; [exact Hrun|].
      unfold with_adjugate. cbn [heap].
      rewrite !(lookup_after_alloc s _ _ _ E), !(lookup_after_alloc s _ _ _ Ez).
      repeat split; auto; discriminate.
    - set (s1 := with_adjugate s o) in *.
      exists (fresh (dom (heap s1))),
        (mkState (<[fresh (dom (heap s1)) := scaled (adjugate o) k]> (heap s1))
                 (console s1)),
        (scaled (adjugate o) k).
      split; [exact Hrun|]. cbn [heap].
      assert (E1 : heap s1 !! m = Some o)
        by (unfold s1, with_adjugate; cbn [heap]; now apply lookup_after_alloc).
      split; [apply lookup_insert_eq|].
      split; [now apply lookup_after_alloc|].
      split; [|discriminate]. intros _. split; [reflexivity|].
      apply fresh_after_alloc. }
  split; [now apply determinant_run|].
  split.
  { split.
    - intros (e & s' & Ht). destruct (strict_eq d num_zero) eqn:Hzero; [reflexivity|].
      destruct (Hret eq_refl) as (r & s1 & res & Hr & _). congruence.
    - intros Hzero. rewrite Hzero in Hrun. eauto. }
  split; [intros Hzero; now rewrite Hzero in Hrun|].
  split; [exact Hret|].
  intros Hexact Hnz. subst k. rewrite Hd in *.
  pose proof (proj1 (strict_eq_false _ _) Hnz) as Hd'.
  split; [apply strict_eq_false; now apply reciprocal_nonzero|].
  split; [now apply product_inverse_right|].
  split; [now apply product_inverse_left|].
  apply strict_eq_false. rewrite det_inverse by exact Hd'.
  now apply reciprocal_nonzero.
Qed.

Lemma inverse_throws_iff_determinant_zero_witness :
  let one := Q2Qc 1 in
  let two := Q2Qc 2 in
  let three := Q2Qc 3 in
  let four := Q2Qc 4 in
  let o := mkMat2 one two three four in
  let s := snd (Mat2_new [one; two; three; four] initial_state) in
  let d := num_sub (num_mul (v11 o) (v22 o)) (num_mul (v12 o) (v21 o)) in
  let k := num_div num_one d in
  determinant 3%positive s = (Returns d, s) /\
  ((exists e s', inverse 3%positive s = (Throws e, s')) <-> strict_eq d num_zero = true) /\
  (strict_eq d num_zero = true ->
     inverse 3%positive s = (Throws "Can not be inverse !", s)) /\
  (strict_eq d num_zero = false ->
     exists (r : loc) (s' : state Qc) (result : Mat2 Qc),
       inverse 3%positive s = (Returns r, s') /\
       heap s' !! r = Some result /\
       heap s' !! 3%positive = Some o /\
       (strict_eq k num_zero = false ->
          result = scaled (adjugate o) k /\ heap s !! r = None) /\
       (strict_eq k num_zero = true -> r = ZERO /\ result = zero_matrix)) /\
  (ExactArithmetic Qc -> strict_eq d num_zero = false ->
     strict_eq k num_zero = false /\
     product o (scaled (adjugate o) k) = identity_matrix /\
     product (scaled (adjugate o) k) o = identity_matrix /\
     strict_eq (det (scaled (adjugate o) k)) num_zero = false).
Proof.
  intros one two three four o s.
  apply (inverse_throws_iff_determinant_zero 3%positive s o zero_matrix); reflexivity.
Defined.

(** C1, as stated for binary64, fails in its last part: a matrix of finite
    numbers with a nonzero determinant can get a degenerate result and no
    error.  For [M = new Mat2(2**-537, 0, 0, 2**-537)] the determinant is
    [2**-1074], the smallest positive number; [1 / det] overflows to
    [Infinity] and the matrix returned is [Infinity, NaN, NaN, Infinity].
    For [M = new Mat2(2**600, 0, 0, 2**600)] the determinant overflows to
    [Infinity], [1 / det] is 0 and the matrix returned is the shared zero
    matrix. *)
Lemma inverse_degenerate_without_error :
  let tiny := 0x1p-537%float in
  let big := 0x1p600%float in
  finite_matrix (mkMat2 tiny 0%float 0%float tiny) = true /\
  fst ((let! m := Mat2_new [tiny; 0%float; 0%float; tiny] in determinant m) initial_state)
    = Returns 0x1p-1074%float /\
  strict_eq 0x1p-1074%float 0%float = false /\
  fst ((let! m := Mat2_new [tiny; 0%float; 0%float; tiny] in
        let! r := inverse m in
        toFlatArray r) initial_state)
    = Returns [infinity; nan; nan; infinity] /\
  finite_matrix (mkMat2 big 0%float 0%float big) = true /\
  fst ((let! m := Mat2_new [big; 0%float; 0%float; big] in determinant m) initial_state)
    = Returns infinity /\
  fst ((let! m := Mat2_new [big; 0%float; 0%float; big] in inverse m) initial_state)
    = Returns ZERO /\
  fst ((let! m := Mat2_new [big; 0%float; 0%float; big] in
        let! r := inverse m in
        toFlatArray r) initial_state)
    = Returns [0%float; 0%float; 0%float; 0%float].
Proof. cbv zeta. repeat split; vm_compute; reflexivity. Qed.

(** * More of [Mat2] *)

(** ** Steps of the other methods *)

Section MoreSteps.
Context {V : Type}.

Lemma with_new_fresh (s : state V) (o : Mat2 V) :
  heap (with_new s o) !! fresh (dom (heap s)) = Some o.
Proof. apply lookup_insert_eq. Qed.

Lemma with_new_old (s : state V) (o ol : Mat2 V) (l : loc) :
  heap s !! l = Some ol -> heap (with_new s o) !! l = Some ol.
Proof. intros E. now apply lookup_after_alloc. Qed.

Lemma state_eta (s : state V) : mkState (heap s) (console s) = s.
Proof. now destruct s. Qed.

Lemma forEachRowOrder_indexed (m : loc) (g : V -> nat -> V) (s : state V) o :
  heap s !! m = Some o ->
  forEachRowOrder m (fun v i => ret (g v i)) s =
    (Returns m, mkState (<[m := mapped_row_order g o]> (heap s)) (console s)).
Proof.
  intros E. unfold forEachRowOrder.
  step. step. erewrite bind_returns by (eapply write_allocated; eassumption).
  cbv beta. cbn [set_field].
  repeat (erewrite bind_returns
            by (eapply read_allocated; cbn [heap]; apply lookup_insert_eq);
          cbv beta; cbn [get_field]; rewrite bind_ret;
          erewrite bind_returns
            by (eapply write_allocated; cbn [heap]; apply lookup_insert_eq);
          cbv beta; cbn [set_field heap console]; rewrite insert_insert_eq).
  reflexivity.
Qed.

Lemma forEachColumnOrder_indexed (m : loc) (g : V -> nat -> V) (s : state V) o :
  heap s !! m = Some o ->
  forEachColumnOrder m (fun v i => ret (g v i)) s =
    (Returns m, mkState (<[m := mapped_column_order g o]> (heap s)) (console s)).
Proof.
  intros E. unfold forEachColumnOrder.
  step. step. erewrite bind_returns by (eapply write_allocated; eassumption).
  cbv beta. cbn [set_field].
  repeat (erewrite bind_returns
            by (eapply read_allocated; cbn [heap]; apply lookup_insert_eq);
          cbv beta; cbn [get_field]; rewrite bind_ret;
          erewrite bind_returns
            by (eapply write_allocated; cbn [heap]; apply lookup_insert_eq);
          cbv beta; cbn [set_field heap console]; rewrite insert_insert_eq).
  reflexivity.
Qed.

(** ** The two traversals *)

(** [forEachRowOrder] and [forEachColumnOrder], given a callback that only
    computes, update the object in place and return it.  Both replace each
    element by the callback's result on it; they differ in the index the
    callback gets with v12 and v21 (1 and 2 in row order, 2 and 1 in column
    order), so they do the same when the callback ignores the index. *)
Theorem forEach_orders (m : loc) (g : V -> nat -> V) (s : state V) (o : Mat2 V) :
  heap s !! m = Some o ->
  forEachRowOrder m (fun v i => ret (g v i)) s
    = (Returns m,
       mkState (<[m := mkMat2 (g (v11 o) 0%nat) (g (v12 o) 1%nat)
                              (g (v21 o) 2%nat) (g (v22 o) 3%nat)]> (heap s))
               (console s)) /\
  forEachColumnOrder m (fun v i => ret (g v i)) s
    = (Returns m,
       mkState (<[m := mkMat2 (g (v11 o) 0%nat) (g (v12 o) 2%nat)
                              (g (v21 o) 1%nat) (g (v22 o) 3%nat)]> (heap s))
               (console s)) /\
  ((forall v i j, g v i = g v j) ->
     forEachRowOrder m (fun v i => ret (g v i)) s
     = forEachColumnOrder m (fun v i => ret (g v i)) s).
Proof.
  intros E.
  rewrite (forEachRowOrder_indexed m g s o E), (forEachColumnOrder_indexed m g s o E).
  split; [reflexivity|]. split; [reflexivity|].
  intros Hg. unfold mapped_row_order, mapped_column_order.
  now rewrite (Hg (v12 o) 1%nat 2%nat), (Hg (v21 o) 2%nat 1%nat).
Qed.

End MoreSteps.

Lemma forEach_orders_witness :
  let g := fun (v : float) (i : nat) => (v + 1)%float in
  let o := identity_matrix (N := float) in
  let s := initial_state (N := float) in
  forEachRowOrder IDENTITY (fun v i => ret (g v i)) s
    = (Returns IDENTITY,
       mkState (<[IDENTITY := mkMat2 (g (v11 o) 0%nat) (g (v12 o) 1%nat)
                                     (g (v21 o) 2%nat) (g (v22 o) 3%nat)]> (heap s))
               (console s)) /\
  forEachColumnOrder IDENTITY (fun v i => ret (g v i)) s
    = (Returns IDENTITY,
       mkState (<[IDENTITY := mkMat2 (g (v11 o) 0%nat) (g (v12 o) 2%nat)
                                     (g (v21 o) 1%nat) (g (v22 o) 3%nat)]> (heap s))
               (console s)) /\
  ((forall v i j, g v i = g v j) ->
     forEachRowOrder IDENTITY (fun v i => ret (g v i)) s
     = forEachColumnOrder IDENTITY (fun v i => ret (g v i)) s).
Proof.
  intros g o s. apply (forEach_orders IDENTITY g s o). reflexivity.
Defined.

(** ** Copies *)

Section Copies.
Context {V : Type} `{Elem V}.

Lemma clone_new (m : loc) (s : state V) o :
  heap s !! m = Some o -> clone m s = (Returns (fresh (dom (heap s))), with_new s o).
Proof. apply clone_run. Qed.

Lemma padded_elements (arr : list V) :
  [element arr 0; element arr 1; element arr 2; element arr 3]
  = take 4 (arr ++ replicate (4 - length arr) zero_value).
Proof. destruct arr as [|a [|b [|c [|d [|e rest]]]]]; reflexivity. Qed.

(** [Mat2.toFlatArray(Mat2.fromArray(arr))] is [arr] cut or filled with
    zeros to four elements, for every array; it is [arr] itself, and nothing
    is logged, when [arr] has four elements.  No object that exists is
    changed. *)
Theorem toFlatArray_fromArray (arr : list V) (s : state V) :
  exists s' : state V,
    (let! m := fromArray arr in toFlatArray m) s
      = (Returns (take 4 (arr ++ replicate (4 - length arr) zero_value)), s') /\
    (forall l ol, heap s !! l = Some ol -> heap s' !! l = Some ol) /\
    (length arr = 4%nat ->
       take 4 (arr ++ replicate (4 - length arr) zero_value) = arr /\
       console s' = console s).
Proof.
  eexists. split.
  - unfold fromArray. erewrite bind_returns by apply Mat2_new_run. cbv beta.
    erewrite toFlatArray_run by (cbn [heap]; apply lookup_insert_eq).
    unfold constructed. cbn [v11 v12 v21 v22]. rewrite padded_elements. reflexivity.
  - cbn [heap console]. split.
    + intros l ol El. now apply lookup_after_alloc.
    + intros Hlen. destruct arr as [|a [|b [|c [|d [|e rest]]]]]; try discriminate.
      split; [reflexivity|]. cbn. now rewrite app_nil_r.
Qed.

(** [Mat2.clone(m)] is a deep copy: a new object with the elements of [m],
    and from then on an in-place update of either object leaves the other
    as it is. *)
Theorem clone_is_independent (m : loc) (s : state V) (o : Mat2 V) :
  heap s !! m = Some o ->
  exists (c : loc) (s1 : state V),
    clone m s = (Returns c, s1) /\
    heap s !! c = None /\
    heap s1 !! c = Some o /\
    heap s1 !! m = Some o /\
    console s1 = console s /\
    (forall g : V -> nat -> V, exists s2 : state V,
       forEachRowOrder c (fun v i => ret (g v i)) s1 = (Returns c, s2) /\
       heap s2 !! m = Some o /\
       heap s2 !! c = Some (mapped_row_order g o)) /\
    (forall g : V -> nat -> V, exists s2 : state V,
       forEachRowOrder m (fun v i => ret (g v i)) s1 = (Returns m, s2) /\
       heap s2 !! c = Some o /\
       heap s2 !! m = Some (mapped_row_order g o)).
Proof.
  intros E. exists (fresh (dom (heap s))), (with_new s o).
  pose proof (allocated_not_fresh s m o E) as Hne.
  pose proof (with_new_fresh s o) as Ec. pose proof (with_new_old s o o m E) as Em.
  split; [now apply clone_new|]. split; [apply fresh_unallocated|].
  split; [exact Ec|]. split; [exact Em|]. split; [reflexivity|].
  split; intros g; eexists.
  - split; [apply forEachRowOrder_indexed; exact Ec|]. cbn [heap].
    split; [|apply lookup_insert_eq].
    rewrite lookup_insert_ne; [exact Em | congruence].
  - split; [apply forEachRowOrder_indexed; exact Em|]. cbn [heap].
    split; [|apply lookup_insert_eq].
    rewrite lookup_insert_ne; [exact Ec | congruence].
Qed.

End Copies.

Lemma clone_is_independent_witness :
  let o := identity_matrix (N := float) in
  let s := initial_state (N := float) in
  exists (c : loc) (s1 : state float),
    clone IDENTITY s = (Returns c, s1) /\
    heap s !! c = None /\
    heap s1 !! c = Some o /\
    heap s1 !! IDENTITY = Some o /\
    console s1 = console s /\
    (forall g : float -> nat -> float, exists s2 : state float,
       forEachRowOrder c (fun v i => ret (g v i)) s1 = (Returns c, s2) /\
       heap s2 !! IDENTITY = Some o /\
       heap s2 !! c = Some (mapped_row_order g o)) /\
    (forall g : float -> nat -> float, exists s2 : state float,
       forEachRowOrder IDENTITY (fun v i => ret (g v i)) s1 = (Returns IDENTITY, s2) /\
       heap s2 !! c = Some o /\
       heap s2 !! IDENTITY = Some (mapped_row_order g o)).
Proof.
  intros o s. apply (clone_is_independent IDENTITY s o). reflexivity.
Defined.

(** ** Which methods change the state *)

Section Numeric.
Context {N : Type} `{Number N}.
Local Open Scope num_scope.

Lemma transpose_new (m : loc) (s : state N) o :
  heap s !! m = Some o ->
  transpose m s = (Returns (fresh (dom (heap s))), with_new s (transposed o)).
Proof. apply transpose_run. Qed.

Lemma multiply_new (a b : loc) (s : state N) oa ob :
  heap s !! a = Some oa -> heap s !! b = Some ob ->
  multiply a b s = (Returns (fresh (dom (heap s))), with_new s (product oa ob)).
Proof. apply multiply_run. Qed.

(** [Mat2.copyTo(source, target)] with a target given returns the target,
    which then holds the elements of [source]; no other object changes and
    nothing is logged.  Copying a matrix to itself changes nothing, and
    copying a second time changes nothing more. *)
Theorem copyTo_explicit_target (source target : loc) (s : state N) (o ot : Mat2 N) :
  heap s !! source = Some o ->
  heap s !! target = Some ot ->
  exists s' : state N,
    copyTo source (Some target) s = (Returns target, s') /\
    heap s' !! target = Some o /\
    heap s' !! source = Some o /\
    (forall l, l <> target -> heap s' !! l = heap s !! l) /\
    console s' = console s /\
    (source = target -> s' = s) /\
    copyTo source (Some target) s' = (Returns target, s').
Proof.
  intros Es Et. exists (mkState (<[target := o]> (heap s)) (console s)).
  assert (Es' : <[target := o]> (heap s) !! source = Some o).
  { destruct (decide (source = target)) as [->|Hne];
      [apply lookup_insert_eq | now rewrite lookup_insert_ne by congruence]. }
  split; [now apply (copyTo_run source target s o ot)|]. cbn [heap console].
  split; [apply lookup_insert_eq|]. split; [exact Es'|].
  split; [intros l Hl; now rewrite lookup_insert_ne by congruence|].
  split; [reflexivity|]. split.
  - intros ->. rewrite insert_id by exact Es. apply state_eta.
  - rewrite (copyTo_run source target _ o o)
      by (cbn [heap]; first [exact Es' | apply lookup_insert_eq]).
    cbn [heap console]. now rewrite insert_insert_eq.
Qed.

Lemma preserves_unchanged {A : Type} (c : M N A) (s : state N) :
  snd (c s) = s -> preserves c s.
Proof. intros E. unfold preserves. rewrite E. auto. Qed.

Lemma preserves_with_new {A : Type} (c : M N A) (s : state N) (a : A) (o : Mat2 N) :
  c s = (Returns a, with_new s o) -> preserves c s.
Proof.
  intros E. unfold preserves. rewrite E. cbn [snd].
  split; [reflexivity|]. intros l ol El. now apply with_new_old.
Qed.

(** On matrices that exist, [determinant], [equalPerElement], [toArray] and
    [toFlatArray] leave the whole state as it is, and [clone], [transpose],
    [multiply], [multiplyByScalar] and [inverse] log nothing and change no
    object that exists, whether they return or throw: what they add is new
    objects only.  The methods that write to an existing object are
    [copyTo], [forEachRowOrder] and [forEachColumnOrder]. *)
Theorem readers_and_builders_preserve_state
    (a b : loc) (num : N) (s : state N) (oa ob : Mat2 N) :
  heap s !! a = Some oa ->
  heap s !! b = Some ob ->
  snd (determinant a s) = s /\
  snd (equalPerElement a b s) = s /\
  snd (toArray a s) = s /\
  snd (toFlatArray a s) = s /\
  preserves (clone a) s /\
  preserves (transpose a) s /\
  preserves (multiply a b) s /\
  preserves (multiplyByScalar a num) s /\
  preserves (inverse a) s.
Proof.
  intros Ea Eb.
  split; [now rewrite (determinant_run a s oa Ea)|].
  split; [now rewrite (equalPerElement_run a b s oa ob Ea Eb)|].
  split; [now rewrite (toArray_run a s oa Ea)|].
  split; [now rewrite (toFlatArray_run a s oa Ea)|].
  split; [exact (preserves_with_new _ _ _ _ (clone_new a s oa Ea))|].
  split; [exact (preserves_with_new _ _ _ _ (transpose_new a s oa Ea))|].
  split; [exact (preserves_with_new _ _ _ _ (multiply_new a b s oa ob Ea Eb))|].
  assert (Hscale : forall (m : loc) (k : N) (s0 : state N) om,
            heap s0 !! m = Some om -> preserves (multiplyByScalar m k) s0).
  { intros m k s0 om Em. pose proof (multiplyByScalar_run m k s0 om Em) as Hrun.
    destruct (k === 0).
    - apply preserves_unchanged. now rewrite Hrun.
    - eapply preserves_with_new. exact Hrun. }
  split; [now apply (Hscale a num s oa)|].
  pose proof (inverse_run a s oa Ea) as Hrun.
  destruct (det oa === 0).
  - apply preserves_unchanged. now rewrite Hrun.
  - destruct (Hscale (fresh (dom (heap s))) (1 / det oa) (with_adjugate s oa) (adjugate oa))
      as [Hc Hh]; [apply lookup_insert_eq|].
    unfold preserves. rewrite Hrun. split; [exact Hc|].
    intros l ol El. apply Hh. unfold with_adjugate. cbn [heap].
    now apply lookup_after_alloc.
Qed.

(** ** Transposition *)

(** When multiplication of numbers is commutative, as it is for binary64
    and for exact numbers, a matrix and its transpose have the same
    determinant, rounding included. *)
Theorem determinant_transpose (m : loc) (s : state N) (o : Mat2 N) :
  (forall v w : N, v * w = w * v) ->
  heap s !! m = Some o ->
  exists (d : N) (s' : state N),
    determinant m s = (Returns d, s) /\
    (let! t := transpose m in determinant t) s = (Returns d, s').
Proof.
  intros Hcomm E. exists (det o), (with_new s (transposed o)).
  split; [now apply determinant_run|].
  erewrite bind_returns by (apply transpose_new; eassumption). cbv beta.
  rewrite (determinant_run _ _ (transposed o)) by apply with_new_fresh.
  unfold det, transposed. cbn [v11 v12 v21 v22].
  now rewrite (Hcomm (v21 o) (v12 o)).
Qed.

Lemma product_transposed (oa ob : Mat2 N) :
  (forall v w : N, v * w = w * v) ->
  product (transposed ob) (transposed oa) = transposed (product oa ob).
Proof.
  intros Hcomm. unfold product, transposed. cbn [v11 v12 v21 v22].
  f_equal; f_equal; apply Hcomm.
Qed.

(** When multiplication of numbers is commutative, the transpose of a
    product is the product of the transposes in the opposite order, element
    for element: [transpose(multiply(a, b))] and
    [multiply(transpose(b), transpose(a))] hold the same elements. *)
Theorem transpose_multiply (a b : loc) (s : state N) (oa ob : Mat2 N) :
  (forall v w : N, v * w = w * v) ->
  heap s !! a = Some oa ->
  heap s !! b = Some ob ->
  exists (r1 : loc) (s1 : state N) (r2 : loc) (s2 : state N) (result : Mat2 N),
    (let! p := multiply a b in transpose p) s = (Returns r1, s1) /\
    (let! tb := transpose b in let! ta := transpose a in multiply tb ta) s
      = (Returns r2, s2) /\
    heap s1 !! r1 = Some result /\
    heap s2 !! r2 = Some result.
Proof.
  intros Hcomm Ea Eb.
  eexists _, _, _, _, (transposed (product oa ob)).
  split.
  { erewrite bind_returns by (apply multiply_new; eassumption). cbv beta.
    apply transpose_new. apply with_new_fresh. }
  split.
  { erewrite bind_returns by (apply transpose_new; eassumption). cbv beta.
    erewrite bind_returns
      by (apply transpose_new; apply with_new_old; eassumption). cbv beta.
    apply (multiply_new _ _ _ (transposed ob) (transposed oa)).
    - apply with_new_old, with_new_fresh.
    - apply with_new_fresh. }
  split; [apply with_new_fresh|].
  rewrite product_transposed by exact Hcomm. apply with_new_fresh.
Qed.

(** [Mat2.equalPerElement] does not depend on the order of its arguments
    when [===] on numbers does not, as is the case for binary64 and for
    exact numbers. *)
Theorem equalPerElement_symmetric (a b : loc) (s : state N) (oa ob : Mat2 N) :
  (forall v w : N, strict_eq v w = strict_eq w v) ->
  heap s !! a = Some oa ->
  heap s !! b = Some ob ->
  equalPerElement a b s = equalPerElement b a s.
Proof.
  intros Hsym Ea Eb.
  rewrite (equalPerElement_run a b s oa ob Ea Eb), (equalPerElement_run b a s ob oa Eb Ea).
  unfold equal_elements.
  now rewrite (Hsym (v11 oa)), (Hsym (v12 oa)), (Hsym (v21 oa)), (Hsym (v22 oa)).
Qed.

End Numeric.

Lemma copyTo_explicit_target_witness :
  let s := initial_state (N := float) in
  exists s' : state float,
    copyTo IDENTITY (Some ZERO) s = (Returns ZERO, s') /\
    heap s' !! ZERO = Some identity_matrix /\
    heap s' !! IDENTITY = Some identity_matrix /\
    (forall l, l <> ZERO -> heap s' !! l = heap s !! l) /\
    console s' = console s /\
    (IDENTITY = ZERO -> s' = s) /\
    copyTo IDENTITY (Some ZERO) s' = (Returns ZERO, s').
Proof.
  intros s.
  apply (copyTo_explicit_target IDENTITY ZERO s identity_matrix zero_matrix);
    reflexivity.
Defined.

Lemma readers_and_builders_preserve_state_witness :
  let s := initial_state (N := float) in
  snd (determinant IDENTITY s) = s /\
  snd (equalPerElement IDENTITY ZERO s) = s /\
  snd (toArray IDENTITY s) = s /\
  snd (toFlatArray IDENTITY s) = s /\
  preserves (clone IDENTITY) s /\
  preserves (transpose IDENTITY) s /\
  preserves (multiply IDENTITY ZERO) s /\
  preserves (multiplyByScalar IDENTITY 2%float) s /\
  preserves (inverse IDENTITY) s.
Proof.
  intros s.
  apply (readers_and_builders_preserve_state IDENTITY ZERO 2%float s
           identity_matrix zero_matrix); reflexivity.
Defined.

(** ** Matrix algebra under exact arithmetic *)

Section ExactAlgebra.
Context {N : Type} `{ExactArithmetic N}.
Local Open Scope num_scope.

Add Field exact_arithmetic_algebra : exact_field.

Lemma product_assoc (oa ob oc : Mat2 N) :
  product (product oa ob) oc = product oa (product ob oc).
Proof. unfold product. cbn [v11 v12 v21 v22]. f_equal; ring. Qed.

Lemma det_product (oa ob : Mat2 N) : det (product oa ob) = det oa * det ob.
Proof. unfold det, product. cbn [v11 v12 v21 v22]. ring. Qed.

Lemma product_identity_left (o : Mat2 N) : product identity_matrix o = o.
Proof.
  destruct o as [a b c d]. unfold product, identity_matrix.
  cbn [v11 v12 v21 v22]. f_equal; ring.
Qed.

Lemma scaled_scaled (o : Mat2 N) (j k : N) : scaled (scaled o j) k = scaled o (j * k).
Proof. unfold scaled. cbn [v11 v12 v21 v22]. f_equal; ring. Qed.

Lemma scaled_zero (o : Mat2 N) : scaled o 0 = zero_matrix.
Proof. unfold scaled, zero_matrix. f_equal; ring. Qed.

Lemma det_scaled (o : Mat2 N) (k : N) : det (scaled o k) = k * k * det o.
Proof. unfold det, scaled. cbn [v11 v12 v21 v22]. ring. Qed.

Lemma det_transposed (o : Mat2 N) : det (transposed o) = det o.
Proof. unfold det, transposed. cbn [v11 v12 v21 v22]. ring. Qed.

Lemma product_nonzero (v w : N) : v <> 0 -> w <> 0 -> v * w <> 0.
Proof.
  intros Hv Hw Hz. apply Hw.
  transitivity ((1 / v) * (v * w)); [field; exact Hv | rewrite Hz; ring].
Qed.

(** The inverse of a product, element for element. *)
Lemma inverse_product_elements (oa ob : Mat2 N) :
  det oa <> 0 -> det ob <> 0 ->
  scaled (adjugate (product oa ob)) (1 / det (product oa ob))
  = product (scaled (adjugate ob) (1 / det ob)) (scaled (adjugate oa) (1 / det oa)).
Proof.
  intros Ha Hb.
  pose proof (product_nonzero _ _ Ha Hb) as Hp. rewrite <- det_product in Hp.
  destruct oa as [a11 a12 a21 a22], ob as [b11 b12 b21 b22].
  unfold det, product, scaled, adjugate in *. cbn [v11 v12 v21 v22] in *.
  f_equal; field; auto.
Qed.

Lemma inverse_transposed_elements (o : Mat2 N) :
  scaled (adjugate (transposed o)) (1 / det (transposed o))
  = transposed (scaled (adjugate o) (1 / det o)).
Proof. rewrite det_transposed. reflexivity. Qed.

(** [multiplyByScalar] while [Mat2.ZERO] holds zeros: the result holds the
    scaled elements, whichever branch is taken. *)
Lemma multiplyByScalar_scaled (m : loc) (num : N) (s : state N) (o : Mat2 N) :
  heap s !! m = Some o ->
  heap s !! ZERO = Some zero_matrix ->
  exists (r : loc) (s' : state N),
    multiplyByScalar m num s = (Returns r, s') /\
    heap s' !! r = Some (scaled o num) /\
    (forall l ol, heap s !! l = Some ol -> heap s' !! l = Some ol).
Proof.
  intros E Ez. rewrite (multiplyByScalar_run m num s o E).
  destruct (num === 0) eqn:Hnum.
  - apply exact_strict_eq in Hnum. subst num.
    exists ZERO, s. rewrite scaled_zero. auto.
  - eexists _, _. split; [reflexivity|]. cbn [heap].
    split; [apply lookup_insert_eq|].
    intros l ol El. now apply lookup_after_alloc.
Qed.

(** Under exact arithmetic [Mat2.multiply] is associative:
    [multiply(multiply(a, b), c)] and [multiply(a, multiply(b, c))] hold the
    same elements. *)
Theorem multiply_associative_exact (a b c : loc) (s : state N) (oa ob oc : Mat2 N) :
  heap s !! a = Some oa ->
  heap s !! b = Some ob ->
  heap s !! c = Some oc ->
  exists (r1 : loc) (s1 : state N) (r2 : loc) (s2 : state N) (result : Mat2 N),
    (let! ab := multiply a b in multiply ab c) s = (Returns r1, s1) /\
    (let! bc := multiply b c in multiply a bc) s = (Returns r2, s2) /\
    heap s1 !! r1 = Some result /\
    heap s2 !! r2 = Some result.
Proof.
  intros Ea Eb Ec. eexists _, _, _, _, (product (product oa ob) oc).
  split.
  { erewrite bind_returns by (apply multiply_new; eassumption). cbv beta.
    apply (multiply_new _ _ _ (product oa ob) oc);
      [apply with_new_fresh | now apply with_new_old]. }
  split.
  { erewrite bind_returns by (apply multiply_new; eassumption). cbv beta.
    apply (multiply_new _ _ _ oa (product ob oc));
      [now apply with_new_old | apply with_new_fresh]. }
  split; [apply with_new_fresh|]. rewrite product_assoc. apply with_new_fresh.
Qed.

(** Under exact arithmetic the determinant of [multiply(a, b)] is the
    product of the determinants of [a] and [b]. *)
Theorem determinant_multiply_exact (a b : loc) (s : state N) (oa ob : Mat2 N) :
  heap s !! a = Some oa ->
  heap s !! b = Some ob ->
  exists (da db : N) (s' : state N),
    determinant a s = (Returns da, s) /\
    determinant b s = (Returns db, s) /\
    (let! p := multiply a b in determinant p) s = (Returns (da * db), s').
Proof.
  intros Ea Eb. exists (det oa), (det ob). eexists.
  split; [now apply determinant_run|]. split; [now apply determinant_run|].
  erewrite bind_returns by (apply multiply_new; eassumption). cbv beta.
  rewrite (determinant_run _ _ (product oa ob)) by apply with_new_fresh.
  now rewrite det_product.
Qed.

(** Under exact arithmetic, for a matrix [m] whose determinant is not 0,
    [Mat2.inverse(m)] returns, and its product with [m], on either side,
    holds the elements of the identity matrix. *)
Theorem multiply_inverse_exact (m : loc) (s : state N) (o : Mat2 N) :
  heap s !! m = Some o ->
  (det o === 0) = false ->
  exists (r1 : loc) (s1 : state N) (r2 : loc) (s2 : state N),
    (let! i := inverse m in multiply m i) s = (Returns r1, s1) /\
    heap s1 !! r1 = Some identity_matrix /\
    (let! i := inverse m in multiply i m) s = (Returns r2, s2) /\
    heap s2 !! r2 = Some identity_matrix.
Proof.
  intros E Hd. pose proof (proj1 (strict_eq_false _ _) Hd) as Hd'.
  pose proof (reciprocal_nonzero _ Hd') as Hk.
  destruct (inverse_returns m s o E Hd (proj2 (strict_eq_false _ _) Hk))
    as (i & si & Hi & Ei & Hframe & _).
  exists (fresh (dom (heap si))), (with_new si identity_matrix),
         (fresh (dom (heap si))), (with_new si identity_matrix).
  split.
  { erewrite bind_returns by exact Hi. cbv beta.
    rewrite <- (product_inverse_right o Hd'). apply multiply_new; auto. }
  split; [apply with_new_fresh|]. split; [|apply with_new_fresh].
  erewrite bind_returns by exact Hi. cbv beta.
  rewrite <- (product_inverse_left o Hd'). apply multiply_new; auto.
Qed.

(** Under exact arithmetic, while [Mat2.IDENTITY] holds the identity,
    [Mat2.multiply(Mat2.IDENTITY, m)] is a new matrix, an object that did
    not exist before, with the elements of [m]: the identity is neutral on
    the left as well.  No object that exists is changed and nothing is
    logged. *)
Theorem IDENTITY_multiply_exact (m : loc) (s : state N) (o : Mat2 N) :
  heap s !! m = Some o ->
  heap s !! IDENTITY = Some identity_matrix ->
  exists (r : loc) (s' : state N),
    multiply IDENTITY m s = (Returns r, s') /\
    heap s !! r = None /\
    heap s' !! r = Some o /\
    heap s' !! m = Some o /\
    (forall l ol, heap s !! l = Some ol -> heap s' !! l = Some ol) /\
    console s' = console s.
Proof.
  intros E Ei. exists (fresh (dom (heap s))), (with_new s o).
  split.
  { replace (with_new s o) with (with_new s (product identity_matrix o))
      by now rewrite product_identity_left.
    now apply multiply_new. }
  split; [apply fresh_unallocated|]. split; [apply with_new_fresh|].
  split; [now apply with_new_old|].
  split; [intros l ol El; now apply with_new_old | reflexivity].
Qed.

(** Under exact arithmetic, while [Mat2.ZERO] holds zeros, scaling by [j]
    and then by [k] gives the elements of [m] times [j * k], also when [j]
    or [k] is 0; [m] and [Mat2.ZERO] are as before. *)
Theorem multiplyByScalar_twice_exact (m : loc) (j k : N) (s : state N) (o : Mat2 N) :
  heap s !! m = Some o ->
  heap s !! ZERO = Some zero_matrix ->
  exists (r : loc) (s' : state N),
    (let! t := multiplyByScalar m j in multiplyByScalar t k) s = (Returns r, s') /\
    heap s' !! r = Some (scaled o (j * k)) /\
    heap s' !! m = Some o /\
    heap s' !! ZERO = Some zero_matrix.
Proof.
  intros E Ez.
  destruct (multiplyByScalar_scaled m j s o E Ez) as (t & s1 & Ht & Et & Hf1).
  destruct (multiplyByScalar_scaled t k s1 (scaled o j) Et (Hf1 _ _ Ez))
    as (r & s2 & Hr & Er & Hf2).
  exists r, s2. erewrite bind_returns by exact Ht. cbv beta.
  split; [exact Hr|]. rewrite <- scaled_scaled. auto.
Qed.

(** Under exact arithmetic, while [Mat2.ZERO] holds zeros, the determinant
    of [multiplyByScalar(m, k)] is [k * k] times the determinant of [m]. *)
Theorem determinant_scaled_matrix_exact (m : loc) (k : N) (s : state N) (o : Mat2 N) :
  heap s !! m = Some o ->
  heap s !! ZERO = Some zero_matrix ->
  exists (d : N) (s' : state N),
    determinant m s = (Returns d, s) /\
    (let! t := multiplyByScalar m k in determinant t) s = (Returns (k * k * d), s').
Proof.
  intros E Ez. exists (det o).
  destruct (multiplyByScalar_scaled m k s o E Ez) as (t & s1 & Ht & Et & _).
  exists s1. split; [now apply determinant_run|].
  erewrite bind_returns by exact Ht. cbv beta.
  rewrite (determinant_run _ _ _ Et). now rewrite det_scaled.
Qed.

(** Under exact arithmetic, for matrices [a] and [b] whose determinants are
    not 0, [inverse(multiply(a, b))] returns and holds the same elements as
    [multiply(inverse(b), inverse(a))]. *)
Theorem inverse_multiply_exact (a b : loc) (s : state N) (oa ob : Mat2 N) :
  heap s !! a = Some oa ->
  heap s !! b = Some ob ->
  (det oa === 0) = false ->
  (det ob === 0) = false ->
  exists (r1 : loc) (s1 : state N) (r2 : loc) (s2 : state N) (result : Mat2 N),
    (let! p := multiply a b in inverse p) s = (Returns r1, s1) /\
    (let! ib := inverse b in let! ia := inverse a in multiply ib ia) s
      = (Returns r2, s2) /\
    heap s1 !! r1 = Some result /\
    heap s2 !! r2 = Some result.
Proof.
  intros Ea Eb Hda Hdb.
  pose proof (proj1 (strict_eq_false _ _) Hda) as Ha.
  pose proof (proj1 (strict_eq_false _ _) Hdb) as Hb.
  pose proof (product_nonzero _ _ Ha Hb) as Hp. rewrite <- det_product in Hp.
  destruct (inverse_returns _ (with_new s (product oa ob)) (product oa ob)
              (with_new_fresh s _) (proj2 (strict_eq_false _ _) Hp)
              (proj2 (strict_eq_false _ _) (reciprocal_nonzero _ Hp)))
    as (r1 & s1 & Hr1 & E1 & _).
  destruct (inverse_returns b s ob Eb Hdb
              (proj2 (strict_eq_false _ _) (reciprocal_nonzero _ Hb)))
    as (ib & sb & Hib & Eib & Hfb & _).
  destruct (inverse_returns a sb oa (Hfb _ _ Ea) Hda
              (proj2 (strict_eq_false _ _) (reciprocal_nonzero _ Ha)))
    as (ia & sa & Hia & Eia & Hfa & _).
  exists r1, s1, (fresh (dom (heap sa))). eexists. eexists.
  split.
  { erewrite bind_returns by (apply multiply_new; eassumption). cbv beta. exact Hr1. }
  split.
  { erewrite bind_returns by exact Hib. cbv beta.
    erewrite bind_returns by exact Hia. cbv beta.
    apply multiply_new; [apply Hfa; exact Eib | exact Eia]. }
  split; [exact E1|].
  rewrite inverse_product_elements by assumption. apply with_new_fresh.
Qed.

(** Under exact arithmetic, for a matrix [m] whose determinant is not 0,
    inverting the transpose and transposing the inverse both return and
    give the same elements. *)
Theorem inverse_transpose_exact (m : loc) (s : state N) (o : Mat2 N) :
  heap s !! m = Some o ->
  (det o === 0) = false ->
  exists (r1 : loc) (s1 : state N) (r2 : loc) (s2 : state N) (result : Mat2 N),
    (let! t := transpose m in inverse t) s = (Returns r1, s1) /\
    (let! i := inverse m in transpose i) s = (Returns r2, s2) /\
    heap s1 !! r1 = Some result /\
    heap s2 !! r2 = Some result.
Proof.
  intros E Hd. pose proof (proj1 (strict_eq_false _ _) Hd) as Hd'.
  pose proof (proj2 (strict_eq_false _ _) (reciprocal_nonzero _ Hd')) as Hk.
  assert (Hdt : (det (transposed o) === 0) = false) by now rewrite det_transposed.
  assert (Hkt : (1 / det (transposed o) === 0) = false) by now rewrite det_transposed.
  destruct (inverse_returns _ (with_new s (transposed o)) (transposed o)
              (with_new_fresh s _) Hdt Hkt) as (r1 & s1 & Hr1 & E1 & _).
  destruct (inverse_returns m s o E Hd Hk) as (i & si & Hi & Ei & _).
  exists r1, s1, (fresh (dom (heap si))). eexists. eexists.
  split.
  { erewrite bind_returns by (apply transpose_new; eassumption). cbv beta. exact Hr1. }
  split.
  { erewrite bind_returns by exact Hi. cbv beta. apply transpose_new. exact Ei. }
  split; [exact E1|]. rewrite inverse_transposed_elements. apply with_new_fresh.
Qed.

End ExactAlgebra.

Lemma multiply_associative_exact_witness :
  let s := rational_example in
  exists (r1 : loc) (s1 : state Qc) (r2 : loc) (s2 : state Qc) (result : Mat2 Qc),
    (let! ab := multiply 3%positive 4%positive in multiply ab 3%positive) s
      = (Returns r1, s1) /\
    (let! bc := multiply 4%positive 3%positive in multiply 3%positive bc) s
      = (Returns r2, s2) /\
    heap s1 !! r1 = Some result /\
    heap s2 !! r2 = Some result.
Proof.
  intros s.
  apply (multiply_associative_exact 3%positive 4%positive 3%positive s
           rational_example_3 rational_example_4 rational_example_3); reflexivity.
Defined.

Lemma determinant_multiply_exact_witness :
  let s := rational_example in
  exists (da db : Qc) (s' : state Qc),
    determinant 3%positive s = (Returns da, s) /\
    determinant 4%positive s = (Returns db, s) /\
    (let! p := multiply 3%positive 4%positive in determinant p) s
      = (Returns (num_mul da db), s').
Proof.
  intros s.
  apply (determinant_multiply_exact 3%positive 4%positive s
           rational_example_3 rational_example_4); reflexivity.
Defined.

Lemma multiply_inverse_exact_witness :
  let s := rational_example in
  exists (r1 : loc) (s1 : state Qc) (r2 : loc) (s2 : state Qc),
    (let! i := inverse 3%positive in multiply 3%positive i) s = (Returns r1, s1) /\
    heap s1 !! r1 = Some identity_matrix /\
    (let! i := inverse 3%positive in multiply i 3%positive) s = (Returns r2, s2) /\
    heap s2 !! r2 = Some identity_matrix.
Proof.
  intros s.
  apply (multiply_inverse_exact 3%positive s rational_example_3); reflexivity.
Defined.

Lemma IDENTITY_multiply_exact_witness :
  let s := rational_example in
  exists (r : loc) (s' : state Qc),
    multiply IDENTITY 3%positive s = (Returns r, s') /\
    heap s !! r = None /\
    heap s' !! r = Some rational_example_3 /\
    heap s' !! 3%positive = Some rational_example_3 /\
    (forall l ol, heap s !! l = Some ol -> heap s' !! l = Some ol) /\
    console s' = console s.
Proof.
  intros s.
  apply (IDENTITY_multiply_exact 3%positive s rational_example_3); reflexivity.
Defined.

Lemma multiplyByScalar_twice_exact_witness :
  let s := rational_example in
  exists (r : loc) (s' : state Qc),
    (let! t := multiplyByScalar 3%positive (Q2Qc 2) in multiplyByScalar t (Q2Qc 0)) s
      = (Returns r, s') /\
    heap s' !! r = Some (scaled rational_example_3 (num_mul (Q2Qc 2) (Q2Qc 0))) /\
    heap s' !! 3%positive = Some rational_example_3 /\
    heap s' !! ZERO = Some zero_matrix.
Proof.
  intros s.
  apply (multiplyByScalar_twice_exact 3%positive (Q2Qc 2) (Q2Qc 0) s
           rational_example_3); reflexivity.
Defined.

Lemma determinant_scaled_matrix_exact_witness :
  let s := rational_example in
  exists (d : Qc) (s' : state Qc),
    determinant 3%positive s = (Returns d, s) /\
    (let! t := multiplyByScalar 3%positive (Q2Qc 5) in determinant t) s
      = (Returns (num_mul (num_mul (Q2Qc 5) (Q2Qc 5)) d), s').
Proof.
  intros s.
  apply (determinant_scaled_matrix_exact 3%positive (Q2Qc 5) s
           rational_example_3); reflexivity.
Defined.

Lemma inverse_multiply_exact_witness :
  let s := rational_example in
  exists (r1 : loc) (s1 : state Qc) (r2 : loc) (s2 : state Qc) (result : Mat2 Qc),
    (let! p := multiply 3%positive 4%positive in inverse p) s = (Returns r1, s1) /\
    (let! ib := inverse 4%positive in let! ia := inverse 3%positive in multiply ib ia) s
      = (Returns r2, s2) /\
    heap s1 !! r1 = Some result /\
    heap s2 !! r2 = Some result.
Proof.
  intros s.
  apply (inverse_multiply_exact 3%positive 4%positive s
           rational_example_3 rational_example_4); reflexivity.
Defined.

Lemma inverse_transpose_exact_witness :
  let s := rational_example in
  exists (r1 : loc) (s1 : state Qc) (r2 : loc) (s2 : state Qc) (result : Mat2 Qc),
    (let! t := transpose 3%positive in inverse t) s = (Returns r1, s1) /\
    (let! i := inverse 3%positive in transpose i) s = (Returns r2, s2) /\
    heap s1 !! r1 = Some result /\
    heap s2 !! r2 = Some result.
Proof.
  intros s.
  apply (inverse_transpose_exact 3%positive s rational_example_3); reflexivity.
Defined.

(** ** Binary64 *)

Section Binary64More.
Local Open Scope Z_scope.

Lemma float_mul_one (v : float) : (v * 1)%float = v.
Proof.
  apply Prim2SF_inj. rewrite mul_spec, Prim2SF_one.
  pose proof (Prim2SF_valid v) as Hv.
  destruct (Prim2SF v) as [s|s| |s m e]; cbn -[SF64mul] in *.
  - cbn. now rewrite xorb_false_r.
  - cbn. now rewrite xorb_false_r.
  - reflexivity.
  - now apply SF64mul_one.
Qed.

Lemma SFcompare_antisym (v w : spec_float) :
  SFcompare w v = option_map CompOpp (SFcompare v w).
Proof.
  destruct v as [s|s| |s m e], w as [s'|s'| |s' m' e']; cbn;
    try reflexivity; try (now destruct s); try (now destruct s');
    try (now destruct s, s').
  destruct s, s'; try reflexivity; cbn;
    rewrite (Z.compare_antisym e e'); destruct (e ?= e'); cbn; try reflexivity;
    now rewrite (Pos.compare_cont_antisym m m' Eq).
Qed.

Lemma float_eqb_sym (v w : float) : (v =? w)%float = (w =? v)%float.
Proof.
  rewrite !FloatAxioms.eqb_spec. unfold SFeqb.
  rewrite (SFcompare_antisym (Prim2SF v) (Prim2SF w)).
  destruct (SFcompare (Prim2SF v) (Prim2SF w)) as [[]|]; reflexivity.
Qed.

Lemma float_eqb_refl (v : float) : (v =? v)%float = negb (PrimFloat.is_nan v).
Proof. unfold PrimFloat.is_nan. now rewrite negb_involutive. Qed.

(** In binary64, while [Mat2.IDENTITY] holds the identity,
    [Mat2.multiply(Mat2.IDENTITY, m)] is element-wise equal to [m] for every
    [m] with finite elements. *)
Theorem IDENTITY_multiply_finite (m : loc) (s : state float) (o : Mat2 float) :
  heap s !! m = Some o ->
  heap s !! IDENTITY = Some identity_matrix ->
  finite_matrix o = true ->
  exists (r : loc) (s' : state float),
    multiply IDENTITY m s = (Returns r, s') /\
    heap s' !! m = Some o /\
    equalPerElement r m s' = (Returns true, s').
Proof.
  intros E Ei Hf.
  exists (fresh (dom (heap s))), (with_new s (product identity_matrix o)).
  split; [now apply multiply_new|].
  pose proof (with_new_old s (product identity_matrix o) o m E) as Em.
  split; [exact Em|].
  rewrite (equalPerElement_run _ _ _ (product identity_matrix o) o)
    by first [apply with_new_fresh | exact Em].
  f_equal. f_equal.
  unfold finite_matrix in Hf. rewrite !andb_true_iff in Hf.
  destruct Hf as [[[Ha Hb] Hc] Hd].
  unfold equal_elements, product, identity_matrix.
  cbn [v11 v12 v21 v22 num_add num_mul num_zero num_one strict_eq binary64].
  change PrimFloat.one with 1%float. change PrimFloat.zero with 0%float.
  rewrite !(float_mul_comm 1%float), !(float_mul_comm 0%float).
  now rewrite !float_identity_left, !float_identity_right by assumption.
Qed.

(** In binary64, [Mat2.multiplyByScalar(m, 1)] does exactly what
    [Mat2.clone(m)] does, for every [m], NaN and infinite elements
    included: a new object with the elements of [m], bit for bit. *)
Theorem multiplyByScalar_one_is_clone (m : loc) (s : state float) (o : Mat2 float) :
  heap s !! m = Some o ->
  exists (r : loc) (s' : state float),
    multiplyByScalar m 1%float s = (Returns r, s') /\
    clone m s = (Returns r, s') /\
    heap s !! r = None /\
    heap s' !! r = Some o /\
    heap s' !! m = Some o.
Proof.
  intros E. exists (fresh (dom (heap s))), (with_new s o).
  split.
  - rewrite (multiplyByScalar_run m _ s o E).
    change (1%float === 0)%num with false. cbv iota.
    unfold scaled, with_new. cbn [num_mul binary64].
    rewrite !float_mul_one. now destruct o.
  - split; [now apply clone_new|]. split; [apply fresh_unallocated|].
    split; [apply with_new_fresh | now apply with_new_old].
Qed.

(** In binary64, [Mat2.equalPerElement(m, m)] is [false] exactly when an
    element of [m] is NaN, and so is the comparison of [m] with its
    clone. *)
Theorem equalPerElement_self_iff_no_NaN (m : loc) (s : state float) (o : Mat2 float) :
  heap s !! m = Some o ->
  equalPerElement m m s = (Returns (negb (has_NaN o)), s) /\
  exists s' : state float,
    (let! c := clone m in equalPerElement c m) s = (Returns (negb (has_NaN o)), s').
Proof.
  intros E.
  assert (Hself : equal_elements o o = negb (has_NaN o)).
  { unfold equal_elements, has_NaN. cbn [strict_eq binary64].
    rewrite !float_eqb_refl, !negb_orb. reflexivity. }
  split.
  - rewrite (equalPerElement_run m m s o o E E). now rewrite Hself.
  - exists (with_new s o).
    erewrite bind_returns by (apply clone_new; eassumption). cbv beta.
    rewrite (equalPerElement_run _ _ _ o o)
      by first [apply with_new_fresh | now apply with_new_old].
    now rewrite Hself.
Qed.

End Binary64More.

Lemma IDENTITY_multiply_finite_witness :
  let s := binary64_example in
  exists (r : loc) (s' : state float),
    multiply IDENTITY 3%positive s = (Returns r, s') /\
    heap s' !! 3%positive = Some binary64_example_3 /\
    equalPerElement r 3%positive s' = (Returns true, s').
Proof.
  intros s.
  apply (IDENTITY_multiply_finite 3%positive s binary64_example_3); reflexivity.
Defined.

Lemma multiplyByScalar_one_is_clone_witness :
  let o := mkMat2 nan infinity (-0)%float 4%float in
  let s := snd (Mat2_new [nan; infinity; (-0)%float; 4%float] initial_state) in
  exists (r : loc) (s' : state float),
    multiplyByScalar 3%positive 1%float s = (Returns r, s') /\
    clone 3%positive s = (Returns r, s') /\
    heap s !! r = None /\
    heap s' !! r = Some o /\
    heap s' !! 3%positive = Some o.
Proof.
  intros o s.
  apply (multiplyByScalar_one_is_clone 3%positive s o); reflexivity.
Defined.

Lemma equalPerElement_self_iff_no_NaN_witness :
  let o := mkMat2 1%float nan 3%float 4%float in
  let s := snd (Mat2_new [1%float; nan; 3%float; 4%float] initial_state) in
  equalPerElement 3%positive 3%positive s = (Returns (negb (has_NaN o)), s) /\
  exists s' : state float,
    (let! c := clone 3%positive in equalPerElement c 3%positive) s
      = (Returns (negb (has_NaN o)), s').
Proof.
  intros o s.
  apply (equalPerElement_self_iff_no_NaN 3%positive s o); reflexivity.
Defined.

Lemma determinant_transpose_witness :
  let s := binary64_example in
  exists (d : float) (s' : state float),
    determinant 3%positive s = (Returns d, s) /\
    (let! t := transpose 3%positive in determinant t) s = (Returns d, s').
Proof.
  intros s.
  apply (determinant_transpose 3%positive s binary64_example_3);
    [exact float_mul_comm | reflexivity].
Defined.

Lemma transpose_multiply_witness :
  let s := binary64_example in
  exists (r1 : loc) (s1 : state float) (r2 : loc) (s2 : state float)
         (result : Mat2 float),
    (let! p := multiply 3%positive 4%positive in transpose p) s = (Returns r1, s1) /\
    (let! tb := transpose 4%positive in
     let! ta := transpose 3%positive in multiply tb ta) s = (Returns r2, s2) /\
    heap s1 !! r1 = Some result /\
    heap s2 !! r2 = Some result.
Proof.
  intros s.
  apply (transpose_multiply 3%positive 4%positive s
           binary64_example_3 binary64_example_4);
    [exact float_mul_comm | reflexivity | reflexivity].
Defined.

Lemma equalPerElement_symmetric_witness :
  let s := binary64_example in
  equalPerElement 3%positive 4%positive s = equalPerElement 4%positive 3%positive s.
Proof.
  intros s.
  apply (equalPerElement_symmetric 3%positive 4%positive s
           binary64_example_3 binary64_example_4);
    [exact float_eqb_sym | reflexivity | reflexivity].
Defined.

(** ** [fromMat3] and [multiplyVec2] *)

Section Mat3Facts.
Context {N : Type} `{Number N}.

Variable Mat3 : Type.
Variable Mat3_toArray : Mat3 -> list N.

(** When [m.toArray()] has at least five elements, as the row-major array
    of a 3 by 3 matrix has, [Mat2.fromMat3(m)] is a new matrix with the
    elements at indices 0, 1, 3 and 4, the upper left block; nothing is
    logged and no object that exists is changed. *)
Theorem fromMat3_upper_left (m : Mat3) (s : state N)
    (a b c d e : N) (rest : list N) :
  Mat3_toArray m = a :: b :: c :: d :: e :: rest ->
  exists (r : loc) (s' : state N),
    fromMat3 Mat3 Mat3_toArray m s = (Returns r, s') /\
    heap s !! r = None /\
    heap s' !! r = Some (mkMat2 a b d e) /\
    (forall l ol, heap s !! l = Some ol -> heap s' !! l = Some ol) /\
    console s' = console s.
Proof.
  intros Harr. unfold fromMat3. rewrite Harr. cbn [lookup list_lookup].
  unfold fromArray. rewrite Mat2_new_run, constructed_four, warnings_four, app_nil_r.
  eexists _, _. split; [reflexivity|]. cbn [heap console].
  split; [apply fresh_unallocated|]. split; [apply lookup_insert_eq|].
  split; [|reflexivity]. intros l ol El. now apply lookup_after_alloc.
Qed.

End Mat3Facts.

Lemma fromMat3_upper_left_witness :
  let m := [1; 2; 3; 4; 5; 6; 7; 8; 9]%float in
  let s := initial_state (N := float) in
  exists (r : loc) (s' : state float),
    fromMat3 (list float) (fun a => a) m s = (Returns r, s') /\
    heap s !! r = None /\
    heap s' !! r = Some (mkMat2 1 2 4 5)%float /\
    (forall l ol, heap s !! l = Some ol -> heap s' !! l = Some ol) /\
    console s' = console s.
Proof.
  intros m s.
  apply (fromMat3_upper_left (list float) (fun a => a) m s 1 2 3 4 5 [6; 7; 8; 9])%float.
  reflexivity.
Defined.

Section Vec2Steps.
Context {N : Type} `{Number N}.
Local Open Scope num_scope.

Variable Vec2 : Type.
Variable Vec2_new : N -> N -> Vec2.
Variable Vec2_x : Vec2 -> N.
Variable Vec2_y : Vec2 -> N.

Lemma multiplyVec2_run (m : loc) (vec : Vec2) (s : state N) o :
  heap s !! m = Some o ->
  multiplyVec2 Vec2 Vec2_new Vec2_x Vec2_y m vec s =
    (Returns (Vec2_new (v11 o * Vec2_x vec + v12 o * Vec2_y vec)
                       (v21 o * Vec2_x vec + v22 o * Vec2_y vec)), s).
Proof. intros E. unfold multiplyVec2. do 4 step. reflexivity. Qed.

End Vec2Steps.

Section ExactVec2.
Context {N : Type} `{ExactArithmetic N}.
Local Open Scope num_scope.

Add Field exact_arithmetic_vec2 : exact_field.

Variable Vec2 : Type.
Variable Vec2_new : N -> N -> Vec2.
Variable Vec2_x : Vec2 -> N.
Variable Vec2_y : Vec2 -> N.

(** Under exact arithmetic, when the fields of [new Vec2(x, y)] are [x] and
    [y], multiplying a vector by [multiply(a, b)] gives the vector that
    multiplying it by [b] and then by [a] gives; [multiplyVec2] changes
    nothing. *)
Theorem multiplyVec2_multiply_exact (a b : loc) (vec : Vec2) (s : state N)
    (oa ob : Mat2 N) :
  (forall v w : N, Vec2_x (Vec2_new v w) = v) ->
  (forall v w : N, Vec2_y (Vec2_new v w) = w) ->
  heap s !! a = Some oa ->
  heap s !! b = Some ob ->
  exists (result : Vec2) (s' : state N),
    (let! p := multiply a b in
     multiplyVec2 Vec2 Vec2_new Vec2_x Vec2_y p vec) s = (Returns result, s') /\
    (let! w := multiplyVec2 Vec2 Vec2_new Vec2_x Vec2_y b vec in
     multiplyVec2 Vec2 Vec2_new Vec2_x Vec2_y a w) s = (Returns result, s).
Proof.
  intros Hx Hy Ea Eb. eexists _, _. split.
  - erewrite bind_returns by (apply multiply_new; eassumption). cbv beta.
    apply multiplyVec2_run. apply with_new_fresh.
  - erewrite bind_returns by (apply multiplyVec2_run; eassumption). cbv beta.
    rewrite (multiplyVec2_run Vec2 Vec2_new Vec2_x Vec2_y a _ s oa Ea).
    rewrite !Hx, !Hy.
    unfold product. cbn [v11 v12 v21 v22]. do 3 f_equal; ring.
Qed.

(** Under exact arithmetic, when the fields of [new Vec2(x, y)] are [x] and
    [y], and the determinant of [m] is not 0, multiplying a vector by [m]
    and then by [Mat2.inverse(m)] gives the vector's coordinates back; in
    particular [inverse] does not throw. *)
Theorem multiplyVec2_inverse_exact (m : loc) (vec : Vec2) (s : state N) (o : Mat2 N) :
  (forall v w : N, Vec2_x (Vec2_new v w) = v) ->
  (forall v w : N, Vec2_y (Vec2_new v w) = w) ->
  heap s !! m = Some o ->
  (det o === 0) = false ->
  exists s' : state N,
    (let! w := multiplyVec2 Vec2 Vec2_new Vec2_x Vec2_y m vec in
     let! i := inverse m in
     multiplyVec2 Vec2 Vec2_new Vec2_x Vec2_y i w) s
      = (Returns (Vec2_new (Vec2_x vec) (Vec2_y vec)), s').
Proof.
  intros Hx Hy E Hd. pose proof (proj1 (strict_eq_false _ _) Hd) as Hd'.
  pose proof (proj2 (strict_eq_false _ _) (reciprocal_nonzero _ Hd')) as Hk.
  destruct (inverse_returns m s o E Hd Hk) as (i & si & Hi & Ei & _).
  exists si.
  erewrite bind_returns by (apply multiplyVec2_run; eassumption). cbv beta.
  erewrite bind_returns by exact Hi. cbv beta.
  rewrite (multiplyVec2_run Vec2 Vec2_new Vec2_x Vec2_y i _ si _ Ei).
  rewrite !Hx, !Hy. destruct o as [a b c d]. unfold det in *.
  unfold scaled, adjugate. cbn [v11 v12 v21 v22] in *.
  do 3 f_equal; field; exact Hd'.
Qed.

End ExactVec2.

Lemma multiplyVec2_multiply_exact_witness :
  let s := rational_example in
  let vec := (Q2Qc 5, Q2Qc 7) in
  exists (result : Qc * Qc) (s' : state Qc),
    (let! p := multiply 3%positive 4%positive in
     multiplyVec2 (Qc * Qc) pair fst snd p vec) s = (Returns result, s') /\
    (let! w := multiplyVec2 (Qc * Qc) pair fst snd 4%positive vec in
     multiplyVec2 (Qc * Qc) pair fst snd 3%positive w) s = (Returns result, s).
Proof.
  intros s vec.
  apply (multiplyVec2_multiply_exact (Qc * Qc) pair fst snd 3%positive 4%positive vec s
           rational_example_3 rational_example_4); reflexivity.
Defined.

Lemma multiplyVec2_inverse_exact_witness :
  let s := rational_example in
  let vec := (Q2Qc 5, Q2Qc 7) in
  exists s' : state Qc,
    (let! w := multiplyVec2 (Qc * Qc) pair fst snd 3%positive vec in
     let! i := inverse 3%positive in
     multiplyVec2 (Qc * Qc) pair fst snd i w) s
      = (Returns (fst vec, snd vec), s').
Proof.
  intros s vec.
  apply (multiplyVec2_inverse_exact (Qc * Qc) pair fst snd 3%positive vec s
           rational_example_3); reflexivity.
Defined.

(** ** Lines *)

Module LineFacts.
Import LineModel.

(** *** Degenerate lines *)

Section Degenerate.
Context {S : Type} `{Scalar S}.

(** A line whose direction has zero length fails in each of the six distance
    computations, before anything is projected. *)
Lemma degenerate_fails
    (epsilon : S)
    (closest_segment : Vec3 S -> Vec3 S -> Segment S -> DistanceResult S)
    (closest_ray : Vec3 S -> Vec3 S -> Ray S -> DistanceResult S)
    (closest_triangle : Vec3 S -> Vec3 S -> Triangle S -> DistanceResult S)
    (closest_polyline : Vec3 S -> Vec3 S -> Polyline S -> DistanceResult S)
    (l : Line S) (pt : Vec3 S) (segment : Segment S) (other : Line S) (ray : Ray S)
    (triangle : Triangle S) (polyline : Polyline S) :
  degenerate l = true ->
  distancePoint l pt = Err DegenerateConstruction /\
  distanceSegment closest_segment l segment = Err DegenerateConstruction /\
  distanceLine epsilon l other = Err DegenerateConstruction /\
  distanceRay epsilon closest_ray l ray = Err DegenerateConstruction /\
  distanceTriangle closest_triangle l triangle = Err DegenerateConstruction /\
  distancePolyline closest_polyline l polyline = Err DegenerateConstruction.
Proof.
  intros Hd.
  unfold distancePoint, distanceSegment, distanceLine, distanceRay,
    distanceTriangle, distancePolyline.
  rewrite Hd. repeat split; reflexivity.
Qed.

End Degenerate.

Section Binary64Lines.
Local Open Scope Z_scope.

(** A finite binary64 number minus itself is [+0]. *)
Lemma float_sub_self (v : float) : finite v = true -> (v - v)%float = 0%float.
Proof.
  intros Hv. apply Prim2SF_inj. rewrite sub_spec, Prim2SF_zero.
  destruct (finite_cases v Hv) as [[s ->]|(s & m & e & -> & _)].
  - now destruct s.
  - unfold SF64sub, SFsub. rewrite Z.min_id. unfold shl_align.
    rewrite !Z.sub_diag. reflexivity.
Qed.

(** The difference of a point with finite coordinates and itself is the zero
    vector, which [normalize] flags; the line keeps it as its direction. *)
Lemma Line_new_same_point (default_origin default_end p : Vec3 float) :
  finite (x p) = true -> finite (y p) = true -> finite (z p) = true ->
  Line_new default_origin default_end (Some p) (Some p)
  = mkLine p p (mkVec3 0%float 0%float 0%float).
Proof.
  intros Hx Hy Hz. unfold Line_new. cbv beta iota zeta.
  assert (Hd : vsub p p = mkVec3 0%float 0%float 0%float).
  { unfold vsub. cbn [num_sub binary64]. now rewrite !float_sub_self. }
  rewrite Hd. reflexivity.
Qed.


End Binary64Lines.



(** *** Parallel lines, over the real numbers *)

Section RealLines.
Local Open Scope R_scope.

Ltac real_ops :=
  cbn [num_zero num_one num_add num_sub num_mul num_div num_neg strict_eq
       num_sqrt num_lt real real_scalar x y z] in *.

Lemma dot_self_nonneg (v : Vec3 R) : 0 <= dot v v.
Proof. unfold dot. real_ops. nra. Qed.

Lemma vlength_square (v : Vec3 R) : vlength v * vlength v = dot v v.
Proof. unfold vlength, lengthSquared. real_ops. apply sqrt_sqrt, dot_self_nonneg. Qed.

Lemma vlength_nonzero (v : Vec3 R) : 0 < dot v v -> vlength v <> 0.
Proof. intros Hpos Hz. pose proof (vlength_square v) as Hs. rewrite Hz in Hs. lra. Qed.

Lemma dot_self_pos (o e : Vec3 R) : o <> e -> 0 < dot (vsub e o) (vsub e o).
Proof.
  intros Hne. destruct (Rle_lt_dec (dot (vsub e o) (vsub e o)) 0) as [Hle|]; [|assumption].
  exfalso. apply Hne. destruct o as [ox oy oz], e as [ex ey ez].
  unfold dot, vsub in Hle. real_ops.
  pose proof (Rle_0_sqr (ex - ox)) as Hx. pose proof (Rle_0_sqr (ey - oy)) as Hy.
  pose proof (Rle_0_sqr (ez - oz)) as Hz. unfold Rsqr in Hx, Hy, Hz.
  assert (Hx0 : (ex - ox) * (ex - ox) = 0) by lra.
  assert (Hy0 : (ey - oy) * (ey - oy) = 0) by lra.
  assert (Hz0 : (ez - oz) * (ez - oz) = 0) by lra.
  apply Rmult_integral in Hx0, Hy0, Hz0.
  f_equal; lra.
Qed.

(** A vector of positive squared length is divided by its length. *)
Lemma normalize_nonzero (v : Vec3 R) :
  0 < dot v v -> normalize v = Some (vdiv v (vlength v)).
Proof.
  intros Hpos. unfold normalize. cbv zeta. real_ops.
  destruct (Req_dec_T (vlength v) 0) as [Hz|]; [|reflexivity].
  now apply vlength_nonzero in Hz.
Qed.

(** What [normalize] returns has length 1. *)
Lemma unit_length (v : Vec3 R) : 0 < dot v v -> vlength (vdiv v (vlength v)) = 1.
Proof.
  intros Hpos. pose proof (vlength_square v) as Hs.
  pose proof (vlength_nonzero v Hpos) as Hn.
  unfold vlength at 1. unfold lengthSquared. real_ops.
  replace (dot (vdiv v (vlength v)) (vdiv v (vlength v)))
    with (dot v v / (vlength v * vlength v))
    by (unfold dot, vdiv; real_ops; field; exact Hn).
  rewrite Hs. replace (dot v v / dot v v) with 1 by (field; lra).
  apply sqrt_1.
Qed.

(** The line through two distinct points is not degenerate. *)
Lemma Line_new_distinct (default_origin default_end o e : Vec3 R) :
  o <> e ->
  let v := vsub e o in
  Line_new default_origin default_end (Some o) (Some e) = mkLine o e (vdiv v (vlength v)) /\
  degenerate (mkLine o e (vdiv v (vlength v))) = false.
Proof.
  intros Hne v. pose proof (dot_self_pos o e Hne) as Hpos. fold v in Hpos.
  split.
  - unfold Line_new. cbv beta iota zeta. fold v.
    now rewrite (normalize_nonzero v Hpos).
  - unfold degenerate. cbn [direction]. rewrite (unit_length v Hpos). real_ops.
    destruct (Req_dec_T 1 0) as [Hz|]; [lra | reflexivity].
Qed.

(** The cross product of the directions of two parallel lines. *)
Lemma cross_parallel (v : Vec3 R) (k j c : R) :
  k <> 0 -> j <> 0 ->
  let v2 := mkVec3 (c * x v) (c * y v) (c * z v) in
  cross (vdiv v k) (vdiv v2 j) = mkVec3 0 0 0.
Proof.
  intros Hk Hj v2. unfold cross, vdiv, v2. real_ops. f_equal; field; auto.
Qed.

(** Projecting a point of a parallel line on the first line: the foot of
    the perpendicular. *)
Lemma projection_of_offset_point (o v w : Vec3 R) (a : R) :
  0 < dot v v ->
  dot w v = 0 ->
  let pt := vadd (vadd o w) (vscale a v) in
  let u := vdiv v (vlength v) in
  vadd o (vscale (dot (vsub pt o) u) u) = vadd o (vscale a v).
Proof.
  intros Hpos Hw pt u.
  pose proof (vlength_square v) as Hs.
  pose proof (vlength_nonzero v Hpos) as Hn.
  assert (Ht : dot (vsub pt o) u = a * vlength v).
  { replace (dot (vsub pt o) u) with ((dot w v + a * dot v v) / vlength v)
      by (unfold pt, u, dot, vsub, vadd, vscale, vdiv; real_ops; field; exact Hn).
    rewrite Hw, <- Hs. field. exact Hn. }
  rewrite Ht. unfold u, vadd, vscale, vdiv. real_ops.
  f_equal; field; exact Hn.
Qed.


End RealLines.



End LineFacts.
